(** * CrowdStrike CSPM AWS cost estimator: a shallow embedding

    This development embeds [src/aws/cs-aws-cost-estimation.py] (class
    [CrowdStrikeCostEstimator]) and proves the properties C1..C10 of its
    credential resolution, region scope, usage waterfall, cost model and
    run.

    Modelling conventions.

    - Numbers.  Python [int] values are [Z]; Python [float] values are exact
      rationals [Q].  Binary floating-point rounding, overflow and NaN are
      outside the model; [round(x, 2)] is decimal round-half-even on the
      exact value and [int(x)] cuts the fraction of the exact value.  On a
      value that sits on a rounding boundary as a decimal the program's
      binary double lies a little above or below it, and the stored figure
      of the program can differ from the one computed here by one cent (or
      by one event): 225,000 events cost 0.225, stored as 0.22 here and as
      0.23 by the program.  Statements about unrounded costs do not depend
      on this; statements about stored figures give the figure of the exact
      value.  Rounding the exact value moves it by at most half a cent; the
      bounds on stored figures are stated with a whole cent, which leaves
      room for the representation error of a double.
    - Remote calls.  Every boto3 request is answered by an oracle of the
      [World] record.  The oracle sees the list of requests made so far, so
      the answer to the same request may change during a run.  A request
      either returns a well-formed value or raises; every handler in the
      source is [except Exception] or a bare [except], so one exception
      value is enough.
    - Effects.  A computation threads its state and may raise; effects made
      before an exception stay.  The estimator methods thread the request
      log, [calculate_costs] and [run] also the shared list
      [self.results].  The thread pool of [run] is run one task after the
      other, in the order of [self.accounts]; the program fixes no order
      between accounts, so the order of rows and requests across accounts
      is that of the model; within one account it is the program's.
    - [session.client(...)] is local and makes no request; it is taken not
      to raise.  Clock reads ([datetime.utcnow()]) only fix the query window,
      which is kept in the request as a number of trailing days.  Console
      output is not modelled. *)

From Stdlib Require Import ZArith QArith Qround String Ascii List Bool Lia Lqa.
From Stdlib Require Import Permutation.
Import ListNotations.

Local Open Scope string_scope.
Local Open Scope Z_scope.

(** ** Data *)

(** [response['Credentials']] of [sts.assume_role]. *)
Record Credentials : Type := mkCredentials
  { AccessKeyId : string;
    SecretAccessKey : string;
    SessionToken : string }.

(** A [boto3.Session]: the base session of the estimator or one built from
    assumed-role credentials. *)
Inductive Session : Type :=
| BaseSession
| AssumedSession (c : Credentials).

(** The arguments of [cloudwatch.get_metric_statistics]. *)
Record MetricQuery : Type := mkMetricQuery
  { Namespace : string;
    MetricName : string;
    Dimensions : list (string * string);
    TrailingDays : Z;
    Period : Z;
    Statistic : string }.

(** One element of [describe_regions(AllRegions=True)['Regions']]. *)
Record RegionInfo : Type := mkRegionInfo
  { RegionName : string;
    OptInStatus : option string }.

(** One element of [describe_images(...)['Images']]. *)
Record ImageInfo : Type := mkImageInfo
  { ImageDescription : option string;
    ImagePlatform : option string }.

(** One element of [reservation['Instances']]. *)
Record Instance : Type := mkInstance
  { Platform : option string;
    ImageId : option string }.

(** A reservation is its list of instances; a page its list of
    reservations. *)
Definition Reservation : Type := list Instance.
Definition Page : Type := list Reservation.

(** An element of [self.accounts]. *)
Record Account : Type := mkAccount
  { acc_id : string;
    acc_name : string }.

(** The dictionary returned by [estimate_s3_buckets]. *)
Record S3Data : Type := mkS3Data
  { s3_count : Z;
    s3_total_size_gb : Q;
    s3_avg_size_gb : Q }.

(** The dictionary returned by [estimate_ec2_instances]. *)
Record EC2Data : Type := mkEC2Data
  { ec2_total : Z;
    ec2_linux : Z;
    ec2_windows : Z;
    ec2_other : Z }.

(** The [result] dictionary appended to [self.results]. *)
Record Row : Type := mkRow
  { row_account_id : string;
    row_account_name : string;
    row_region : string;
    row_monthly_events : Z;
    row_monthly_egress_gb : Q;
    row_s3_bucket_count : Z;
    row_s3_storage_gb : Q;
    row_ec2_instance_count : Z;
    row_linux_instance_count : Z;
    row_eventbridge_cost : Q;
    row_data_egress_cost : Q;
    row_lambda_cost : Q;
    row_cloudtrail_cost : Q;
    row_dspm_cost : Q;
    row_snapshot_cost : Q;
    row_total_cost : Q }.

(** ** Remote requests and the world that answers them *)

Inductive Call : Type :=
| GetCallerIdentity
| AssumeRole (role_arn role_session_name : string)
| DescribeRegions (s : Session)
| DescribeVpcs (s : Session) (region : string)
| GetMetricStatistics (s : Session) (region : string) (q : MetricQuery)
| DescribeInstances (s : Session) (region : string)
| ListUsers (s : Session)
| ListRoles (s : Session)
| ListBuckets (s : Session) (region : string)
| GetBucketLocation (s : Session) (region bucket : string)
| PaginateInstances (s : Session) (region : string)
| DescribeImages (s : Session) (region image_id : string).

Inductive outcome (A : Type) : Type :=
| Val (a : A)
| Raised.
Arguments Val {A} a.
Arguments Raised {A}.

(** What the paginator of [describe_instances] yields: the pages it
    delivers and whether it then raises instead of finishing. *)
Record Pages : Type := mkPages
  { pages_delivered : list Page;
    pages_then_raise : bool }.

(** The answers of AWS.  The first argument is the log of requests made
    before this one. *)
Record World : Type := mkWorld
  { sts_get_caller_identity : list Call -> outcome string;
    sts_assume_role : list Call -> string -> string -> outcome Credentials;
    ec2_describe_regions : list Call -> Session -> outcome (list RegionInfo);
    ec2_describe_vpcs : list Call -> Session -> string -> outcome unit;
    cloudwatch_get_metric_statistics :
      list Call -> Session -> string -> MetricQuery -> outcome (list Q);
    ec2_describe_instances :
      list Call -> Session -> string -> outcome (list Reservation);
    iam_list_users : list Call -> Session -> outcome (list string);
    iam_list_roles : list Call -> Session -> outcome (list string);
    s3_list_buckets : list Call -> Session -> string -> outcome (list string);
    s3_get_bucket_location :
      list Call -> Session -> string -> string -> outcome (option string);
    ec2_paginate_instances : list Call -> Session -> string -> Pages;
    ec2_describe_images :
      list Call -> Session -> string -> string -> outcome (list ImageInfo) }.

(** ** Effects *)

(** A computation over a state [S] that returns a value or raises.  The
    state reached is kept in both cases. *)
Definition Eff (S A : Type) : Type := S -> outcome A * S.

Definition ret {S A : Type} (a : A) : Eff S A := fun st => (Val a, st).

Definition bind {S A B : Type} (m : Eff S A) (k : A -> Eff S B) : Eff S B :=
  fun st =>
    match m st with
    | (Val a, st') => k a st'
    | (Raised, st') => (Raised, st')
    end.

Definition raise {S A : Type} : Eff S A := fun st => (Raised, st).

(** [try: body / except: handler]. *)
Definition try_except {S A : Type} (body handler : Eff S A) : Eff S A :=
  fun st =>
    match body st with
    | (Val a, st') => (Val a, st')
    | (Raised, st') => handler st'
    end.

(** A [for] loop that updates its local variables [a] on every element. *)
Fixpoint for_each {S A B : Type} (l : list B) (a : A) (body : A -> B -> Eff S A)
    : Eff S A :=
  match l with
  | [] => ret a
  | b :: l' => bind (body a b) (fun a' => for_each l' a' body)
  end.

(** The estimator methods only talk to AWS: their state is the request
    log. *)
Definition Log : Type := list Call.
Definition M (A : Type) : Type := Eff Log A.

(** Issue request [c]; [answer] is the oracle applied to its arguments. *)
Definition remote {A : Type} (c : Call) (answer : Log -> outcome A) : M A :=
  fun tr => (answer tr, (tr ++ [c])%list).

(** [calculate_costs] and [run] also write [self.results]. *)
Record St : Type := mkSt
  { trace : Log;
    results : list Row }.

Definition lift {A : Type} (m : M A) : Eff St A :=
  fun st => let (r, tr) := m (trace st) in (r, mkSt tr (results st)).

(** [self.results.append(row)]. *)
Definition append_result (r : Row) : Eff St unit :=
  fun st => (Val tt, mkSt (trace st) (results st ++ [r])%list).

Declare Scope py_scope.
Delimit Scope py_scope with py.
Notation "x <- c1 ;; c2" := (bind c1 (fun x => c2))
  (at level 100, c1 at next level, right associativity) : py_scope.
Notation "c1 ;;; c2" := (bind c1 (fun _ => c2))
  (at level 100, right associativity) : py_scope.
Local Open Scope py_scope.

(** ** The estimator object *)

(** The attributes of [self] that the methods read. *)
Record Estimator : Type := mkEstimator
  { regions : list string;
    include_all_regions : bool;
    include_dspm : bool;
    include_snapshot : bool;
    accounts : list Account;
    all_available_regions : list string }.

(** [__init__], lines 119-136.  The hardcoded catalog used when
    [describe_regions] fails on the base session. *)
Definition fallback_catalog : list string :=
  ["us-east-1"; "us-east-2"; "us-west-1"; "us-west-2";
   "ca-central-1"; "eu-west-1"; "eu-west-2"; "eu-west-3";
   "eu-central-1"; "eu-north-1"; "ap-northeast-1";
   "ap-northeast-2"; "ap-northeast-3"; "ap-southeast-1";
   "ap-southeast-2"; "ap-south-1"; "sa-east-1"].

(** The caller's explicit region list, or the default when there is none
    ([regions] is [None] or empty). *)
Definition explicit_or_default (regions_arg : option (list string)) : list string :=
  match regions_arg with
  | None | Some [] => ["us-east-1"]
  | Some rs => rs
  end.

(** The value [__init__] leaves in [self.regions]; [catalog] is the value
    of [self.all_available_regions]. *)
Definition init_regions (include_all : bool) (regions_arg : option (list string))
    (catalog : list string) : list string :=
  if include_all then catalog else explicit_or_default regions_arg.

(** The object [__init__] builds from its arguments, once the region
    catalog and the active accounts have been fetched. *)
Definition constructed (regions_arg : option (list string))
    (include_all dspm snapshot : bool) (catalog : list string)
    (active_accounts : list Account) : Estimator :=
  mkEstimator (init_regions include_all regions_arg catalog)
              include_all dspm snapshot active_accounts catalog.

Section Methods.

Variable w : World.
Variable self : Estimator.

(** *** [_get_account_session] *)

Definition role_arn_of (account_id role_name : string) : string :=
  "arn:aws:iam::" ++ account_id ++ ":role/" ++ role_name.

Definition role_session_name_of (account_id : string) : string :=
  "CrowdStrikeCostEstimation-" ++ account_id.

Definition assume_role (account_id role_name : string) : M Session :=
  let arn := role_arn_of account_id role_name in
  let name := role_session_name_of account_id in
  c <- remote (AssumeRole arn name) (fun tr => sts_assume_role w tr arn name) ;;
  ret (AssumedSession c).

(** The [for role_name in [...]] loop of the handler: the first role that
    can be assumed ends the loop, a failure moves on. *)
Fixpoint try_alternative_roles (account_id : string) (role_names : list string)
    : M (option Session) :=
  match role_names with
  | [] => ret None
  | role_name :: rest =>
      try_except
        (s <- assume_role account_id role_name ;; ret (Some s))
        (try_alternative_roles account_id rest)
  end.

Definition alternative_role_names : list string :=
  ["AWSControlTowerExecution"; "OrganizationAccountAccess"].

Definition _get_account_session (account_id : string) : M (option Session) :=
  caller <- remote GetCallerIdentity (sts_get_caller_identity w) ;;
  if String.eqb account_id caller then ret (Some BaseSession)
  else
    try_except
      (s <- assume_role account_id "OrganizationAccountAccessRole" ;;
       ret (Some s))
      (try_alternative_roles account_id alternative_role_names).


(** *** [get_enabled_regions_for_account] *)

(** [region.get('OptInStatus') != 'not-opted-in']. *)
Definition opted_in (r : RegionInfo) : bool :=
  match OptInStatus r with
  | Some status => negb (String.eqb status "not-opted-in")
  | None => true
  end.

(** The loop over [self.all_available_regions]: a region is kept when its
    [describe_vpcs] probe returns. *)
Fixpoint probe_regions (s : Session) (catalog enabled_regions : list string)
    : M (list string) :=
  match catalog with
  | [] => ret enabled_regions
  | region :: rest =>
      ok <- try_except
              (remote (DescribeVpcs s region)
                      (fun tr => ec2_describe_vpcs w tr s region) ;;;
               ret true)
              (ret false) ;;
      probe_regions s rest
        (if ok then (enabled_regions ++ [region])%list else enabled_regions)
  end.

Definition get_enabled_regions_for_account (account_id : string)
    : M (list string) :=
  session <- _get_account_session account_id ;;
  match session with
  | None => ret (regions self)
  | Some s =>
      try_except
        (described <-
           try_except
             (response <- remote (DescribeRegions s)
                                 (fun tr => ec2_describe_regions w tr s) ;;
              ret (Some (map RegionName (filter opted_in response))))
             (ret None) ;;
         match described with
         | Some regions => ret regions
         | None =>
             enabled_regions <- probe_regions s (all_available_regions self) [] ;;
             ret (match enabled_regions with
                  | [] => regions self
                  | _ :: _ => enabled_regions
                  end)
         end)
        (ret (regions self))
  end.

Local Open Scope Q_scope.

(** *** Shared arithmetic *)

(** [sum(point[stat] for point in datapoints)]. *)
Definition py_sum (xs : list Q) : Q := fold_left Qplus xs 0.

(** [total / days] with
    [days = len(datapoints) if len(datapoints) > 0 else 1]. *)
Definition daily_average (datapoints : list Q) : Q :=
  let total := py_sum datapoints in
  let days := if (Z.of_nat (length datapoints) >? 0)%Z
              then Z.of_nat (length datapoints) else 1%Z in
  total / inject_Z days.

(** [int(x)]: truncation towards zero. *)
Definition py_int (x : Q) : Z := Z.quot (Qnum x) (Zpos (Qden x)).

(** Round half to even, to an integer. *)
Definition round_half_even (x : Q) : Z :=
  let f := Qfloor x in
  match Qcompare (x - inject_Z f) (1 # 2) with
  | Lt => f
  | Gt => (f + 1)%Z
  | Eq => if Z.even f then f else (f + 1)%Z
  end.

(** [round(x, 2)]. *)
Definition py_round2 (x : Q) : Q := Qred (inject_Z (round_half_even (x * 100)) / 100).

Definition get_metric_statistics (s : Session) (region : string) (q : MetricQuery)
    : M (list Q) :=
  remote (GetMetricStatistics s region q)
         (fun tr => cloudwatch_get_metric_statistics w tr s region q).

(** *** [estimate_cloudtrail_events] *)

Definition trail_events_query (region : string) : MetricQuery :=
  mkMetricQuery "AWS/CloudTrail" "Events" [("Region", region)] 7 86400 "Sum".

Definition call_count_query : MetricQuery :=
  mkMetricQuery "AWS/Usage" "CallCount"
    [("Service", "ALL"); ("Type", "API"); ("Resource", "ALL"); ("Class", "ALL")]
    7 86400 "Sum".

(** [sum(len(reservation['Instances']) for reservation in ...)]. *)
Definition instance_count_of (reservations : list Reservation) : Z :=
  fold_left Z.add (map (fun r => Z.of_nat (length r)) reservations) 0%Z.

(** The second [try] block: [Some] when it returns from the function. *)
Definition events_from_call_count (s : Session) (region : string) : M (option Q) :=
  try_except
    (datapoints <- get_metric_statistics s region call_count_query ;;
     match datapoints with
     | _ :: _ =>
         let monthly_estimate := daily_average datapoints * 30 in
         ret (Some (monthly_estimate * 0.15))
     | [] => ret None
     end)
    (ret None).

(** The third [try] block. *)
Definition events_from_resources (s : Session) (region : string) : M (option Q) :=
  try_except
    (reservations <- remote (DescribeInstances s region)
                            (fun tr => ec2_describe_instances w tr s region) ;;
     let instance_count := instance_count_of reservations in
     users <- remote (ListUsers s) (fun tr => iam_list_users w tr s) ;;
     let user_count := Z.of_nat (length users) in
     roles <- remote (ListRoles s) (fun tr => iam_list_roles w tr s) ;;
     let role_count := Z.of_nat (length roles) in
     let activity_factor := ((instance_count + user_count + role_count) * 5000)%Z in
     ret (Some (inject_Z (Z.max activity_factor 100000))))
    (ret None).

Definition estimate_cloudtrail_events (account_id region : string) : M Q :=
  session <- _get_account_session account_id ;;
  match session with
  | None => ret 1000000
  | Some s =>
      try_except
        (datapoints <- get_metric_statistics s region (trail_events_query region) ;;
         match datapoints with
         | _ :: _ =>
             let monthly_estimate := daily_average datapoints * 30 in
             ret monthly_estimate
         | [] =>
             from_calls <- events_from_call_count s region ;;
             match from_calls with
             | Some estimate => ret estimate
             | None =>
                 from_resources <- events_from_resources s region ;;
                 match from_resources with
                 | Some estimate => ret estimate
                 | None => ret 1000000
                 end
             end
         end)
        (ret 1000000)
  end.

(** *** [estimate_data_transfer] *)

Definition bytes_delivered_query (region : string) : MetricQuery :=
  mkMetricQuery "AWS/CloudTrail" "BytesDelivered" [("Region", region)] 7 86400 "Sum".

Definition estimate_data_transfer (account_id region : string) : M Q :=
  session <- _get_account_session account_id ;;
  match session with
  | None => ret 5
  | Some s =>
      try_except
        (datapoints <- get_metric_statistics s region (bytes_delivered_query region) ;;
         match datapoints with
         | _ :: _ =>
             let daily_avg_bytes := daily_average datapoints in
             ret ((daily_avg_bytes * 30) / (1024 * 1024 * 1024))
         | [] =>
             event_count <- estimate_cloudtrail_events account_id region ;;
             let avg_event_size_kb := 1.5 in
             ret ((event_count * avg_event_size_kb * 1024) / (1024 * 1024 * 1024))
         end)
        (ret 5)
  end.

(** *** [estimate_s3_buckets] *)

Definition bucket_size_query (bucket_name : string) : MetricQuery :=
  mkMetricQuery "AWS/S3" "BucketSizeBytes"
    [("BucketName", bucket_name); ("StorageType", "StandardStorage")]
    2 86400 "Average".

Definition default_s3_data : S3Data := mkS3Data 10 500 50.

(** The body of the first loop: does the bucket live in [region]?  A bucket
    whose location cannot be read is skipped. *)
Definition bucket_in_region (s : Session) (region bucket : string) : M bool :=
  try_except
    (location <- remote (GetBucketLocation s region bucket)
                        (fun tr => s3_get_bucket_location w tr s region bucket) ;;
     let location := match location with
                     | None => "us-east-1"
                     | Some l => l
                     end in
     ret (String.eqb location region))
    (ret false).

Definition regional_buckets_of (s : Session) (region : string) (buckets : list string)
    : M (list string) :=
  for_each buckets []
    (fun regional_buckets bucket =>
       keep <- bucket_in_region s region bucket ;;
       ret (if keep then (regional_buckets ++ [bucket])%list else regional_buckets)).

(** The body of the second loop on the pair
    [(total_size_gb, sized_buckets)]. *)
Definition add_bucket_size (s : Session) (region : string) (acc : Q * Z)
    (bucket_name : string) : M (Q * Z) :=
  let '(total_size_gb, sized_buckets) := acc in
  try_except
    (datapoints <- get_metric_statistics s region (bucket_size_query bucket_name) ;;
     match datapoints with
     | first :: _ =>
         let size_gb := first / (1024 * 1024 * 1024) in
         ret (total_size_gb + size_gb, (sized_buckets + 1)%Z)
     | [] => ret (total_size_gb, sized_buckets)
     end)
    (ret (total_size_gb, sized_buckets)).

(** The extrapolation after the loops, before rounding:
    [(total_size_gb, avg_size_gb)]. *)
Definition extrapolate_sizes (bucket_count : Z) (total_size_gb : Q) (sized_buckets : Z)
    : Q * Q :=
  if (sized_buckets >? 0)%Z then
    let avg_size_gb := total_size_gb / inject_Z sized_buckets in
    (avg_size_gb * inject_Z bucket_count, avg_size_gb)
  else
    let avg_size_gb := 50 in
    (avg_size_gb * inject_Z bucket_count, avg_size_gb).

(** The body of the [try] block up to the [return] statement: the bucket
    count and the extrapolated total and average sizes, not yet rounded. *)
Definition s3_inventory (s : Session) (region : string) : M (Z * Q * Q) :=
  buckets <- remote (ListBuckets s region)
                    (fun tr => s3_list_buckets w tr s region) ;;
  regional_buckets <- regional_buckets_of s region buckets ;;
  let bucket_count := Z.of_nat (length regional_buckets) in
  sized <- for_each regional_buckets (0, 0%Z) (add_bucket_size s region) ;;
  let '(total_size_gb, avg_size_gb) :=
    extrapolate_sizes bucket_count (fst sized) (snd sized) in
  ret (bucket_count, total_size_gb, avg_size_gb).

Definition estimate_s3_buckets (account_id region : string) : M S3Data :=
  if negb (include_dspm self) then ret (mkS3Data 0 0 0)
  else
    session <- _get_account_session account_id ;;
    match session with
    | None => ret default_s3_data
    | Some s =>
        try_except
          (inventory <- s3_inventory s region ;;
           let '(bucket_count, total_size_gb, avg_size_gb) := inventory in
           ret (mkS3Data bucket_count (py_round2 total_size_gb) (py_round2 avg_size_gb)))
          (ret default_s3_data)
    end.

(** *** [estimate_ec2_instances] *)

(** ASCII [str.lower()]. *)
Definition lower_ascii (c : ascii) : ascii :=
  let n := nat_of_ascii c in
  if ((65 <=? n) && (n <=? 90))%nat then ascii_of_nat (n + 32) else c.

Fixpoint lower (s : string) : string :=
  match s with
  | EmptyString => EmptyString
  | String c s' => String (lower_ascii c) (lower s')
  end.

(** [needle in hay]. *)
Fixpoint contains (needle hay : string) : bool :=
  String.prefix needle hay ||
  match hay with
  | EmptyString => false
  | String _ hay' => contains needle hay'
  end.

Definition get_or_empty (o : option string) : string :=
  match o with
  | Some v => v
  | None => ""
  end.

Inductive OS : Type := Windows | Linux.

(** The classification inside the inner [try], from the instance's platform
    and the [Images] list of [describe_images]. *)
Definition classify_by_image (platform : string) (images : list ImageInfo) : OS :=
  let '(description, platform) :=
    match images with
    | image :: _ =>
        (lower (get_or_empty (ImageDescription image)),
         lower (get_or_empty (ImagePlatform image)))
    | [] => ("", platform)
    end in
  if contains "windows" description || String.eqb platform "windows" then Windows
  else if existsb (fun x => contains x description)
            ["linux"; "ubuntu"; "centos"; "rhel"; "amazon"; "debian"]
       then Linux
       else Linux.

(** The loop counters [total_count], [linux_count], [windows_count]. *)
Record Counters : Type := mkCounters
  { total_count : Z;
    linux_count : Z;
    windows_count : Z }.

(** The body of the innermost loop. *)
Definition count_instance (s : Session) (region : string) (c : Counters)
    (instance : Instance) : M Counters :=
  let total_count' := (total_count c + 1)%Z in
  let platform := get_or_empty (Platform instance) in
  let image_id := get_or_empty (ImageId instance) in
  if negb (String.eqb platform "") && contains "windows" (lower platform) then
    ret (mkCounters total_count' (linux_count c) (windows_count c + 1)%Z)
  else
    os <- try_except
            (images <- remote (DescribeImages s region image_id)
                              (fun tr => ec2_describe_images w tr s region image_id) ;;
             ret (classify_by_image platform images))
            (ret Linux) ;;
    match os with
    | Windows => ret (mkCounters total_count' (linux_count c) (windows_count c + 1)%Z)
    | Linux => ret (mkCounters total_count' (linux_count c + 1)%Z (windows_count c))
    end.

Definition count_pages (s : Session) (region : string) (pages : list Page)
    : M Counters :=
  for_each pages (mkCounters 0 0 0)
    (fun c page =>
       for_each page c
         (fun c reservation => for_each reservation c (count_instance s region))).

Definition default_ec2_data : EC2Data := mkEC2Data 20 14 5 1.

Definition estimate_ec2_instances (account_id region : string) : M EC2Data :=
  if negb (include_snapshot self) then ret (mkEC2Data 0 0 0 0)
  else
    session <- _get_account_session account_id ;;
    match session with
    | None => ret default_ec2_data
    | Some s =>
        try_except
          (paginated <- remote (PaginateInstances s region)
                               (fun tr => Val (ec2_paginate_instances w tr s region)) ;;
           c <- count_pages s region (pages_delivered paginated) ;;
           (if pages_then_raise paginated then raise else ret tt) ;;;
           let other_count := (total_count c - linux_count c - windows_count c)%Z in
           ret (mkEC2Data (total_count c) (linux_count c) (windows_count c) other_count))
          (ret default_ec2_data)
    end.

(** *** [calculate_costs] *)

(** The unrounded cost variables of one loop iteration. *)
Record Costs : Type := mkCosts
  { eventbridge_cost : Q;
    data_egress_cost : Q;
    lambda_cost : Q;
    cloudtrail_cost : Q;
    dspm_cost : Q;
    snapshot_cost : Q;
    total_cost : Q }.

Definition egress_rate (region : string) : Q :=
  if String.prefix "ap-" region || String.prefix "me-" region then 0.11
  else if String.prefix "sa-" region then 0.12
  else 0.09.

Definition dspm_cost_of (s3_data : S3Data) : Q :=
  if include_dspm self && (s3_count s3_data >? 0)%Z then
    let nat_hourly_rate := 0.045 in
    let nat_data_rate := 0.045 in
    let dspm_instance_hours := 24 in
    let dspm_instance_rate := 0.34 in
    let dspm_monthly_scans := 1 in
    let dspm_instance_cost := dspm_instance_hours * dspm_instance_rate * dspm_monthly_scans in
    let dspm_data_cost := s3_total_size_gb s3_data * nat_data_rate * dspm_monthly_scans in
    let dspm_nat_cost := nat_hourly_rate * 24 * dspm_monthly_scans in
    dspm_instance_cost + dspm_data_cost + dspm_nat_cost
  else 0.

Definition snapshot_compute_cost_of (linux : Z) : Q :=
  let batch_instance_hours := 0.5 in
  let batch_instance_rate := 0.085 in
  let monthly_snapshot_scans := 4 in
  inject_Z linux * batch_instance_hours * batch_instance_rate * monthly_snapshot_scans.

Definition snapshot_storage_cost_of (linux : Z) : Q :=
  let avg_instance_storage_gb := 100 in
  let ebs_snapshot_rate := 0.05 in
  inject_Z linux * avg_instance_storage_gb * ebs_snapshot_rate * (1 / 30).

Definition snapshot_cost_of (ec2_data : EC2Data) : Q :=
  if include_snapshot self && (ec2_linux ec2_data >? 0)%Z then
    snapshot_compute_cost_of (ec2_linux ec2_data)
    + snapshot_storage_cost_of (ec2_linux ec2_data)
  else 0.

Definition costs_of (region : string) (monthly_events monthly_egress_gb : Q)
    (s3_data : S3Data) (ec2_data : EC2Data) : Costs :=
  let eventbridge_cost := (monthly_events / 1000000) * 1.00 in
  let data_egress_cost := monthly_egress_gb * egress_rate region in
  let lambda_cost := 0.10 in
  let cloudtrail_cost := 0 in
  let dspm_cost := dspm_cost_of s3_data in
  let snapshot_cost := snapshot_cost_of ec2_data in
  let total_cost := eventbridge_cost + data_egress_cost + lambda_cost
                    + cloudtrail_cost + dspm_cost + snapshot_cost in
  mkCosts eventbridge_cost data_egress_cost lambda_cost cloudtrail_cost
          dspm_cost snapshot_cost total_cost.

Definition result_row (account_data : Account) (region : string)
    (monthly_events monthly_egress_gb : Q) (s3_data : S3Data) (ec2_data : EC2Data)
    : Row :=
  let c := costs_of region monthly_events monthly_egress_gb s3_data ec2_data in
  mkRow (acc_id account_data) (acc_name account_data) region
        (py_int monthly_events)
        (py_round2 monthly_egress_gb)
        (s3_count s3_data)
        (py_round2 (s3_total_size_gb s3_data))
        (ec2_total ec2_data)
        (ec2_linux ec2_data)
        (py_round2 (eventbridge_cost c))
        (py_round2 (data_egress_cost c))
        (py_round2 (lambda_cost c))
        (py_round2 (cloudtrail_cost c))
        (py_round2 (dspm_cost c))
        (py_round2 (snapshot_cost c))
        (py_round2 (total_cost c)).

(** The metrics gathered at the top of one loop iteration.  The literal
    dictionaries used when a feature is off carry only the keys read later;
    the other fields are zero here. *)
Definition gather_metrics (account_id region : string)
    : M (Q * Q * S3Data * EC2Data) :=
  monthly_events <- estimate_cloudtrail_events account_id region ;;
  monthly_egress_gb <- estimate_data_transfer account_id region ;;
  s3_data <- (if include_dspm self then estimate_s3_buckets account_id region
              else ret (mkS3Data 0 0 0)) ;;
  ec2_data <- (if include_snapshot self then estimate_ec2_instances account_id region
               else ret (mkEC2Data 0 0 0 0)) ;;
  ret (monthly_events, monthly_egress_gb, s3_data, ec2_data).

(** One iteration of [for region in account_regions]. *)
Definition analyze_region (account_data : Account) (region : string) : Eff St unit :=
  m <- lift (gather_metrics (acc_id account_data) region) ;;
  let '(monthly_events, monthly_egress_gb, s3_data, ec2_data) := m in
  append_result
    (result_row account_data region monthly_events monthly_egress_gb s3_data ec2_data).

Definition account_regions_of (account_id : string) : M (list string) :=
  if include_all_regions self then get_enabled_regions_for_account account_id
  else ret (regions self).

Definition calculate_costs (account_data : Account) : Eff St unit :=
  account_regions <- lift (account_regions_of (acc_id account_data)) ;;
  for_each account_regions tt (fun _ region => analyze_region account_data region).

(** *** [run] *)

(** [executor.map(self.calculate_costs, self.accounts)] inside the [with]
    block: every task runs to its end before the block is left, and an
    exception of a task stays in its future, which is never read.  The pool
    is linearised: tasks run one after the other in the order of
    [self.accounts].  The program runs up to 20 of them at once and fixes
    no order between the rows, or the requests, of different accounts: the
    order of rows across accounts is a feature of this model only. *)
Fixpoint run_tasks (todo : list Account) : Eff St unit :=
  match todo with
  | [] => ret tt
  | account_data :: rest =>
      try_except (calculate_costs account_data) (ret tt) ;;;
      run_tasks rest
  end.

(** [run] up to [pd.DataFrame(self.results)]: the rows handed to the
    report. *)
Definition run : Eff St (list Row) :=
  run_tasks (accounts self) ;;;
  (fun st => (Val (results st), st)).

End Methods.

(** ** The constructor and the business-unit summary

    [__init__] and [_add_business_unit_summary] talk to AWS through the
    base session only.  Their requests have a log and a set of oracles of
    their own. *)

Inductive BaseCall : Type :=
| GetSession
| BaseDescribeRegions
| ListAccounts
| BaseGetCallerIdentity
| ListAccountAliases
| ListTagsForResource (resource_id : string).

Definition BaseLog : Type := list BaseCall.

(** One element of [page['Accounts']]. *)
Record OrgAccount : Type := mkOrgAccount
  { Id : string;
    Name : string;
    Status : string }.

(** What the [list_accounts] paginator yields: the pages it delivers and
    whether it then raises instead of finishing. *)
Record AccountPages : Type := mkAccountPages
  { account_pages : list (list OrgAccount);
    accounts_then_raise : bool }.

(** One element of [response['Tags']]. *)
Record Tag : Type := mkTag
  { Key : string;
    Value : string }.

(** The answers to the base session's requests.  [creds_get_session]
    stands for [import aws_creds; aws_creds.get_session()], a module
    outside the repository: [Val true] is a usable session, [Val false] a
    falsy result, [Raised] an [ImportError] or any other exception.
    [iam_list_account_aliases] answers [None] when the response has no
    [AccountAliases] key. *)
Record Management : Type := mkManagement
  { creds_get_session : BaseLog -> outcome bool;
    base_describe_regions : BaseLog -> outcome (list string);
    org_list_accounts : BaseLog -> AccountPages;
    base_get_caller_identity : BaseLog -> outcome string;
    iam_list_account_aliases : BaseLog -> outcome (option (list string));
    org_list_tags_for_resource : BaseLog -> string -> outcome (list Tag) }.

Definition request {A : Type} (c : BaseCall) (answer : BaseLog -> outcome A)
    : Eff BaseLog A :=
  fun tr => (answer tr, (tr ++ [c])%list).

Section Bootstrap.

Variable m : Management.

(** *** [__init__] *)

(** Lines 139-151: the accounts of all pages, reduced to the active ones. *)
Definition list_active_accounts : Eff BaseLog (list Account) :=
  paged <- request ListAccounts (fun tr => Val (org_list_accounts m tr)) ;;
  (if accounts_then_raise paged then raise else ret tt) ;;;
  let all_accounts := concat (account_pages paged) in
  ret (map (fun account => mkAccount (Id account) (Name account))
           (filter (fun account => String.eqb (Status account) "ACTIVE")
                   all_accounts)).

(** Lines 154-159: the handler that falls back to the caller's own
    account. *)
Definition current_account_only : Eff BaseLog (list Account) :=
  account_id <- request BaseGetCallerIdentity (base_get_caller_identity m) ;;
  response <- request ListAccountAliases (iam_list_account_aliases m) ;;
  let account_aliases := match response with
                         | Some aliases => aliases
                         | None => [""]
                         end in
  let account_name := match account_aliases with
                      | alias :: _ => alias
                      | [] => account_id
                      end in
  ret [mkAccount account_id account_name].

(** The constructor.  [Val None] is [sys.exit(1)]: [SystemExit] is not an
    [Exception], so no handler of the constructor stops it. *)
Definition __init__ (regions_arg : option (list string))
    (include_all dspm snapshot : bool) : Eff BaseLog (option Estimator) :=
  session <- try_except
               (established <- request GetSession (creds_get_session m) ;;
                ret (Some established))
               (ret None) ;;
  match session with
  | Some true =>
      catalog <- try_except
                   (request BaseDescribeRegions (base_describe_regions m))
                   (ret fallback_catalog) ;;
      active_accounts <- try_except list_active_accounts current_account_only ;;
      ret (Some (constructed regions_arg include_all dspm snapshot catalog
                             active_accounts))
  | Some false | None => ret None
  end.

(** *** [_add_business_unit_summary] *)

(** [tag['Key'].lower() in ['businessunit', 'business-unit', 'bu']]. *)
Definition is_business_unit_tag (tag : Tag) : bool :=
  existsb (String.eqb (lower (Key tag))) ["businessunit"; "business-unit"; "bu"].

(** [next((tag for tag in tags if ...), None)] and the test that
    follows. *)
Definition business_unit_of (tags : list Tag) : string :=
  match find is_business_unit_tag tags with
  | Some bu_tag => Value bu_tag
  | None => "Untagged"
  end.

(** [df['Account ID'].unique()]: the distinct values in order of first
    appearance. *)
Fixpoint unique_after (seen l : list string) : list string :=
  match l with
  | [] => []
  | x :: l' =>
      if existsb (String.eqb x) seen then unique_after seen l'
      else x :: unique_after (x :: seen) l'
  end.

Definition unique (l : list string) : list string := unique_after [] l.

(** A [dict] with string keys, in insertion order. *)
Fixpoint dict_set (k v : string) (d : list (string * string)) : list (string * string) :=
  match d with
  | [] => [(k, v)]
  | (k', v') :: d' =>
      if String.eqb k' k then (k', v) :: d' else (k', v') :: dict_set k v d'
  end.

Fixpoint dict_get (k : string) (d : list (string * string)) : option string :=
  match d with
  | [] => None
  | (k', v') :: d' => if String.eqb k' k then Some v' else dict_get k d'
  end.

(** Lines 858-876: the dictionary [account_tags]. *)
Definition account_tags_of (account_ids : list string)
    : Eff BaseLog (list (string * string)) :=
  for_each account_ids []
    (fun account_tags account_id =>
       bu <- try_except
               (tags <- request (ListTagsForResource account_id)
                                (fun tr => org_list_tags_for_resource m tr account_id) ;;
                ret (business_unit_of tags))
               (ret "Untagged") ;;
       ret (dict_set account_id bu account_tags)).

(** Lines 855-879: the column [df['Business Unit']], one entry per row;
    [None] is the missing value [Series.map] leaves for a key that is not
    in the dictionary. *)
Definition business_unit_column (rows : list Row) : Eff BaseLog (list (option string)) :=
  let account_ids := unique (map row_account_id rows) in
  account_tags <- account_tags_of account_ids ;;
  ret (map (fun r => dict_get (row_account_id r) account_tags) rows).

End Bootstrap.

(** ** Concrete worlds for the examples *)

(** Nothing answers: every request raises and the paginator delivers no
    page. *)
Definition dark_world : World :=
  mkWorld (fun _ => Raised) (fun _ _ _ => Raised) (fun _ _ => Raised)
          (fun _ _ _ => Raised) (fun _ _ _ _ => Raised) (fun _ _ _ => Raised)
          (fun _ _ => Raised) (fun _ _ => Raised) (fun _ _ _ => Raised)
          (fun _ _ _ _ => Raised) (fun _ _ _ => mkPages [] true)
          (fun _ _ _ _ => Raised).

Definition with_identity (w : World) (account : string) : World :=
  mkWorld (fun _ => Val account) (sts_assume_role w) (ec2_describe_regions w)
          (ec2_describe_vpcs w) (cloudwatch_get_metric_statistics w)
          (ec2_describe_instances w) (iam_list_users w) (iam_list_roles w)
          (s3_list_buckets w) (s3_get_bucket_location w)
          (ec2_paginate_instances w) (ec2_describe_images w).

Definition with_assumable_role (w : World) (arn : string) (c : Credentials) : World :=
  mkWorld (sts_get_caller_identity w)
          (fun tr a n => if String.eqb a arn then Val c else sts_assume_role w tr a n)
          (ec2_describe_regions w)
          (ec2_describe_vpcs w) (cloudwatch_get_metric_statistics w)
          (ec2_describe_instances w) (iam_list_users w) (iam_list_roles w)
          (s3_list_buckets w) (s3_get_bucket_location w)
          (ec2_paginate_instances w) (ec2_describe_images w).

Definition with_metric (w : World) (name : string) (answer : outcome (list Q)) : World :=
  mkWorld (sts_get_caller_identity w) (sts_assume_role w) (ec2_describe_regions w)
          (ec2_describe_vpcs w)
          (fun tr s r q => if String.eqb (MetricName q) name then answer
                           else cloudwatch_get_metric_statistics w tr s r q)
          (ec2_describe_instances w) (iam_list_users w) (iam_list_roles w)
          (s3_list_buckets w) (s3_get_bucket_location w)
          (ec2_paginate_instances w) (ec2_describe_images w).

Definition management_account : string := "111111111111".
Definition member_account : string := "222222222222".
Definition member_credentials : Credentials := mkCredentials "AKIA" "secret" "token".

(** The management account is the caller; nothing else answers. *)
Definition management_world : World := with_identity dark_world management_account.

(** The member account trusts only [AWSControlTowerExecution]. *)
Definition control_tower_world : World :=
  with_assumable_role management_world
    (role_arn_of member_account "AWSControlTowerExecution") member_credentials.

(** The management account with an unreadable trail metric: the [Events]
    query raises, the [CallCount] query has one datapoint. *)
Definition trail_metric_error_world : World :=
  with_metric management_world "CallCount" (Val [100%Q]).

(** The management account with no [BytesDelivered] datapoint and three
    days of trail events. *)
Definition quiet_trail_world : World :=
  with_metric (with_metric management_world "BytesDelivered" (Val []))
    "Events" (Val [100000%Q; 200000%Q; 300000%Q]).

Definition member : Account := mkAccount member_account "member".

(** [--regions eu-west-1 --all-regions], catalog from the fallback list. *)
Definition all_regions_estimator : Estimator :=
  constructed (Some ["eu-west-1"]) true false false fallback_catalog [member].

(** Default arguments: one region, both scan features off. *)
Definition plain_estimator : Estimator :=
  constructed None false false false fallback_catalog [member].

(** [--include-dspm --include-snapshot]. *)
Definition scanning_estimator : Estimator :=
  constructed None false true true fallback_catalog [member].




Definition with_buckets (w : World) (buckets : list string)
    (location : string -> outcome (option string)) : World :=
  mkWorld (sts_get_caller_identity w) (sts_assume_role w) (ec2_describe_regions w)
          (ec2_describe_vpcs w) (cloudwatch_get_metric_statistics w)
          (ec2_describe_instances w) (iam_list_users w) (iam_list_roles w)
          (fun _ _ _ => Val buckets) (fun _ _ _ bucket => location bucket)
          (ec2_paginate_instances w) (ec2_describe_images w).

(** One bucket of 1 MiB in [us-east-1] (location [None]); no trail
    metric. *)
Definition small_bucket_world : World :=
  with_metric (with_buckets management_world ["logs"] (fun _ => Val None))
    "BucketSizeBytes" (Val [1048576%Q]).

(** [--include-dspm]. *)
Definition storage_estimator : Estimator :=
  constructed None false true false fallback_catalog [member].

Definition with_resources (w : World) (reservations : list Reservation)
    (users roles : list string) : World :=
  mkWorld (sts_get_caller_identity w) (sts_assume_role w) (ec2_describe_regions w)
          (ec2_describe_vpcs w) (cloudwatch_get_metric_statistics w)
          (fun _ _ _ => Val reservations) (fun _ _ => Val users) (fun _ _ => Val roles)
          (s3_list_buckets w) (s3_get_bucket_location w)
          (ec2_paginate_instances w) (ec2_describe_images w).

(** No trail datapoint, two days of API-call counts. *)
Definition call_count_world : World :=
  with_metric (with_metric management_world "Events" (Val []))
    "CallCount" (Val [100%Q; 300%Q]).

(** No metric datapoint at all; 3 instances, 2 users and 40 roles. *)
Definition resources_world : World :=
  with_resources
    (with_metric (with_metric management_world "Events" (Val [])) "CallCount" (Val []))
    [[mkInstance None None; mkInstance None None]; [mkInstance None None]]
    ["alice"; "bob"]
    (repeat "role" 40).

(** [--regions us-east-1 us-east-1]. *)
Definition repeated_region_estimator : Estimator :=
  constructed (Some ["us-east-1"; "us-east-1"]) false false false
              fallback_catalog [member].

(** ** Vocabulary for the statements about [run] *)

(** The caller-identity request never raises. *)
Definition identity_known (w : World) : Prop :=
  forall log, sts_get_caller_identity w log <> Raised.

(** The uniqueness key of a row. *)
Definition row_key (r : Row) : string * string := (row_account_id r, row_region r).

(** The rows of one (account, region) pair. *)
Definition rows_for (account_id region : string) (rows : list Row) : list Row :=
  filter (fun r => String.eqb (row_account_id r) account_id
                   && String.eqb (row_region r) region) rows.

(** The region list a task that starts at log [tr] iterates over. *)
Definition scope_at (w : World) (self : Estimator) (account_id : string) (tr : Log)
    : list string :=
  match account_regions_of w self account_id tr with
  | (Val account_regions, _) => account_regions
  | (Raised, _) => []
  end.

(** The accounts of a run, each with the region list its task resolved. *)
Fixpoint run_scopes (w : World) (self : Estimator) (todo : list Account) (st : St)
    : list (Account * list string) :=
  match todo with
  | [] => []
  | account_data :: rest =>
      (account_data, scope_at w self (acc_id account_data) (trace st))
      :: run_scopes w self rest
           (snd (try_except (calculate_costs w self account_data) (ret tt) st))
  end.

(** One key per account and entry of its region list, in order. *)
Definition keys_of (scopes : list (Account * list string)) : list (string * string) :=
  flat_map (fun scope => map (pair (acc_id (fst scope))) (snd scope)) scopes.

(** ** Vocabulary for the statements about the instance loop *)


(** ** The specification's wording, for comparison with the code *)

(** The event waterfall as the specification words it: the answer of each
    tier decides alone, and a tier without data (empty or failed) hands over
    to the next one.  [resources] is the triple of instance, user and role
    counts. *)
Definition spec_events_waterfall (trail calls : outcome (list Q))
    (resources : outcome (Z * Z * Z)) : Q :=
  let from_resources :=
    match resources with
    | Val (instances, users, roles) =>
        inject_Z (Z.max ((instances + users + roles) * 5000) 100000)
    | Raised => 1000000%Q
    end in
  let from_calls :=
    match calls with
    | Val (d :: ds) =>
        (py_sum (d :: ds) / inject_Z (Z.of_nat (length (d :: ds))) * 30 * 0.15)%Q
    | _ => from_resources
    end in
  match trail with
  | Val (d :: ds) => (py_sum (d :: ds) / inject_Z (Z.of_nat (length (d :: ds))) * 30)%Q
  | _ => from_calls
  end.

(** [processed done scopes]: [done] lists the same accounts as [scopes],
    each with an initial part of its region list. *)
Definition processed (done scopes : list (Account * list string)) : Prop :=
  Forall2 (fun d scope =>
             fst d = fst scope /\ exists rest, snd scope = (snd d ++ rest)%list)
          done scopes.

Definition with_region_answers (w : World) (described : outcome (list RegionInfo))
    (reachable : string -> bool) : World :=
  mkWorld (sts_get_caller_identity w) (sts_assume_role w) (fun _ _ => described)
          (fun _ _ region => if reachable region then Val tt else Raised)
          (cloudwatch_get_metric_statistics w)
          (ec2_describe_instances w) (iam_list_users w) (iam_list_roles w)
          (s3_list_buckets w) (s3_get_bucket_location w)
          (ec2_paginate_instances w) (ec2_describe_images w).

(** [describe_regions(AllRegions=True)] is refused; only the two Irish and
    Frankfurt probes answer. *)
Definition probing_world : World :=
  with_region_answers management_world Raised
    (fun region => String.eqb region "eu-west-1" || String.eqb region "eu-central-1").

(** The account has opted in to no region. *)
Definition opted_out_world : World :=
  with_region_answers management_world
    (Val [mkRegionInfo "me-south-1" (Some "not-opted-in");
          mkRegionInfo "af-south-1" (Some "not-opted-in")])
    (fun _ => true).

(** [--all-regions], the management account as the only account. *)
Definition own_account_estimator : Estimator :=
  constructed None true false false fallback_catalog
              [mkAccount management_account "management"].

(** The bucket test of the first loop of [estimate_s3_buckets], for a
    location answer [located] that does not depend on the log. *)
Definition located_in (region : string) (located : string -> outcome (option string))
    (bucket : string) : bool :=
  match located bucket with
  | Val (Some location) => String.eqb location region
  | Val None => String.eqb "us-east-1" region
  | Raised => false
  end.

(** No datapoint: the query raises or returns an empty list. *)
Definition no_datapoint (answer : outcome (list Q)) : Prop :=
  match answer with
  | Val (_ :: _) => False
  | Val [] | Raised => True
  end.

(** Four buckets: one in [us-east-1] by [None], one in [eu-west-1], one in
    [us-east-1] by name, one whose location cannot be read; no size
    metric. *)
Definition four_bucket_world : World :=
  with_buckets management_world ["logs"; "assets"; "backup"; "secret"]
    (fun bucket =>
       if String.eqb bucket "logs" then Val None
       else if String.eqb bucket "assets" then Val (Some "eu-west-1")
       else if String.eqb bucket "backup" then Val (Some "us-east-1")
       else Raised).

Definition management : Account := mkAccount management_account "management".

(** Every datapoint CloudWatch returns is non-negative. *)
Definition metrics_nonnegative (w : World) : Prop :=
  forall log s region q datapoints,
    cloudwatch_get_metric_statistics w log s region q = Val datapoints ->
    Forall (fun d => (0 <= d)%Q) datapoints.

(** ** Concrete answers for the base session *)

(** No credentials module, nothing answers. *)
Definition dark_management : Management :=
  mkManagement (fun _ => Raised) (fun _ => Raised)
               (fun _ => mkAccountPages [] true)
               (fun _ => Raised) (fun _ => Raised) (fun _ _ => Raised).

(** A session, a region catalog of two regions and two pages of accounts,
    one of them suspended. *)
Definition organization : Management :=
  mkManagement (fun _ => Val true)
               (fun _ => Val ["us-east-1"; "eu-west-1"])
               (fun _ => mkAccountPages
                           [[mkOrgAccount "111111111111" "management" "ACTIVE";
                             mkOrgAccount "222222222222" "member" "ACTIVE"];
                            [mkOrgAccount "333333333333" "old" "SUSPENDED"]]
                           false)
               (fun _ => Val "111111111111")
               (fun _ => Val (Some ["corp"]))
               (fun _ id =>
                  if String.eqb id "111111111111"
                  then Val [mkTag "Owner" "ops"; mkTag "Business-Unit" "Platform";
                            mkTag "BU" "Ignored"]
                  else Raised).

(** The same organization, but the account listing breaks after its first
    page. *)
Definition broken_listing : Management :=
  mkManagement (creds_get_session organization) (base_describe_regions organization)
               (fun _ => mkAccountPages
                           [[mkOrgAccount "111111111111" "management" "ACTIVE";
                             mkOrgAccount "222222222222" "member" "ACTIVE"]]
                           true)
               (base_get_caller_identity organization)
               (fun _ => Val (Some []))
               (org_list_tags_for_resource organization).

(** The business unit an account gets when the tag answer does not depend
    on the log. *)
Definition unit_from (answer : string -> outcome (list Tag)) (account_id : string)
    : string :=
  match answer account_id with
  | Val tags => business_unit_of tags
  | Raised => "Untagged"
  end.

(** The number of entries of one (account, region) pair in a list of
    keys. *)
Definition entries_for (account_id region : string) (keys : list (string * string))
    : nat :=
  length (filter (fun k => String.eqb (fst k) account_id
                           && String.eqb (snd k) region) keys).



(** ** Proof tools *)

Ltac run_eff :=
  unfold bind, ret, raise, try_except, remote, lift, append_result in *; simpl in *.

(** ** The model on concrete inputs *)

Example events_from_trail_metric :
  fst (estimate_cloudtrail_events quiet_trail_world management_account "us-east-1" [])
  = Val ((100000 + 200000 + 300000) / 3 * 30)%Q.
Proof. vm_compute. reflexivity. Qed.

Example events_from_call_counts :
  exists events,
    fst (estimate_cloudtrail_events call_count_world management_account "us-east-1" [])
    = Val events
    /\ (events == 900)%Q.
Proof. eexists. split; [vm_compute; reflexivity|reflexivity]. Qed.

Example events_from_resource_counts :
  estimate_cloudtrail_events resources_world management_account "us-east-1" []
  = (Val 225000%Q,
     [GetCallerIdentity;
      GetMetricStatistics BaseSession "us-east-1" (trail_events_query "us-east-1");
      GetMetricStatistics BaseSession "us-east-1" call_count_query;
      DescribeInstances BaseSession "us-east-1";
      ListUsers BaseSession;
      ListRoles BaseSession]).
Proof. vm_compute. reflexivity. Qed.

(** The end-to-end scenarios of the specification: one account, one
    region, both scan features off, nothing measurable. *)
Example end_to_end_us_east_1 :
  exists row,
    fst (run management_world plain_estimator (mkSt [] [])) = Val [row]
    /\ row_key row = (member_account, "us-east-1")
    /\ row_monthly_events row = 1000000%Z
    /\ (row_monthly_egress_gb row == 5)%Q
    /\ (row_eventbridge_cost row == 1.00)%Q
    /\ (row_data_egress_cost row == 0.45)%Q
    /\ (row_lambda_cost row == 0.10)%Q
    /\ (row_total_cost row == 1.55)%Q.
Proof. eexists. split; [vm_compute; reflexivity|]. repeat split. Qed.

Example end_to_end_ap_southeast_2 :
  exists row,
    fst (run management_world
             (constructed (Some ["ap-southeast-2"]) false false false
                          fallback_catalog [member])
             (mkSt [] [])) = Val [row]
    /\ (row_data_egress_cost row == 0.55)%Q
    /\ (row_total_cost row == 1.65)%Q.
Proof. eexists. split; [vm_compute; reflexivity|]. repeat split. Qed.

(** With compute-scan on and no access, the default inventory contributes
    2.38 + 7/3, shown as 4.71. *)
Example end_to_end_snapshot_default :
  exists row,
    fst (run management_world
             (constructed None false false true fallback_catalog [member])
             (mkSt [] [])) = Val [row]
    /\ row_linux_instance_count row = 14%Z
    /\ (row_snapshot_cost row == 4.71)%Q
    /\ (row_total_cost row == 6.26)%Q.
Proof. eexists. split; [vm_compute; reflexivity|]. repeat split. Qed.

(** ** Credential resolution *)

(** C6.  Once the caller identity is known, [_get_account_session] returns
    the base session for the caller's own account with no role assumption;
    for another account it tries [OrganizationAccountAccessRole], then
    [AWSControlTowerExecution], then [OrganizationAccountAccess], stops at
    the first role that can be assumed and returns the session built from
    its credentials, and returns [None] exactly when all three attempts
    raised.  The final log shows which requests were issued. *)
Theorem get_account_session_fallback
    (w : World) (account_id root : string) (tr : Log)
    (Hid : sts_get_caller_identity w tr = Val root) :
  let attempt role_name :=
    AssumeRole (role_arn_of account_id role_name) (role_session_name_of account_id) in
  let answer log role_name :=
    sts_assume_role w log (role_arn_of account_id role_name)
                    (role_session_name_of account_id) in
  let tr0 := (tr ++ [GetCallerIdentity])%list in
  let tr1 := (tr0 ++ [attempt "OrganizationAccountAccessRole"])%list in
  let tr2 := (tr1 ++ [attempt "AWSControlTowerExecution"])%list in
  let tr3 := (tr2 ++ [attempt "OrganizationAccountAccess"])%list in
  if String.eqb account_id root then
    _get_account_session w account_id tr = (Val (Some BaseSession), tr0)
  else
    match answer tr0 "OrganizationAccountAccessRole" with
    | Val c => _get_account_session w account_id tr = (Val (Some (AssumedSession c)), tr1)
    | Raised =>
        match answer tr1 "AWSControlTowerExecution" with
        | Val c =>
            _get_account_session w account_id tr = (Val (Some (AssumedSession c)), tr2)
        | Raised =>
            match answer tr2 "OrganizationAccountAccess" with
            | Val c =>
                _get_account_session w account_id tr
                = (Val (Some (AssumedSession c)), tr3)
            | Raised => _get_account_session w account_id tr = (Val None, tr3)
            end
        end
    end.
Proof.
  intros attempt answer tr0 tr1 tr2 tr3.
  unfold _get_account_session, alternative_role_names.
  cbn [try_alternative_roles]. unfold assume_role. run_eff. rewrite Hid.
  destruct (String.eqb account_id root); [reflexivity|].
  subst answer tr1 tr2 tr3 attempt tr0; cbv beta.
  destruct (sts_assume_role w _ (role_arn_of account_id "OrganizationAccountAccessRole") _);
    [reflexivity|].
  destruct (sts_assume_role w _ (role_arn_of account_id "AWSControlTowerExecution") _);
    [reflexivity|].
  destruct (sts_assume_role w _ (role_arn_of account_id "OrganizationAccountAccess") _);
    reflexivity.
Qed.

(** In [control_tower_world] the primary role fails, the first alternative
    succeeds and the second alternative is never requested. *)
Lemma get_account_session_fallback_witness :
  _get_account_session control_tower_world member_account []
  = (Val (Some (AssumedSession member_credentials)),
     [GetCallerIdentity;
      AssumeRole (role_arn_of member_account "OrganizationAccountAccessRole")
                 (role_session_name_of member_account);
      AssumeRole (role_arn_of member_account "AWSControlTowerExecution")
                 (role_session_name_of member_account)]).
Proof.
  exact (get_account_session_fallback control_tower_world member_account
           management_account [] eq_refl).
Defined.

(** ** Event volume *)

(** C1 as stated fails: in [trail_metric_error_world] the session is
    obtained, the trail-event query yields no datapoint (it raises) and the
    API-call-count query returns a datapoint, yet the estimate is the
    default 1,000,000 and not the tier-2 value 450. *)
Lemma events_waterfall_counterexample :
  let w := trail_metric_error_world in
  let region := "us-east-1" in
  fst (_get_account_session w management_account []) = Val (Some BaseSession)
  /\ (forall log, cloudwatch_get_metric_statistics w log BaseSession region
                    (trail_events_query region) = Raised)
  /\ (forall log, cloudwatch_get_metric_statistics w log BaseSession region
                    call_count_query = Val [100%Q])
  /\ fst (estimate_cloudtrail_events w management_account region []) = Val 1000000%Q
  /\ (spec_events_waterfall Raised (Val [100%Q]) Raised == 450)%Q
  /\ ~ (1000000 == spec_events_waterfall Raised (Val [100%Q]) Raised)%Q.
Proof.
  cbv zeta. repeat split; try reflexivity.
  vm_compute. discriminate.
Qed.

(** C1, amended.  With a session [s], the estimate follows the first tier
    that returns data, and later tiers are not queried: a trail-event
    answer with datapoints gives (sum / count) x 30; an empty one hands
    over to the API-call-count query, whose datapoints give
    (sum / count) x 30 x 0.15; when that query is empty or raises, the
    resource counts give max((instances + users + roles) x 5000, 100000),
    and the default 1,000,000 when one of the three listings raises.  When
    the trail-event query itself raises, the result is the default
    1,000,000 and no later tier is tried. *)
Theorem estimate_cloudtrail_events_waterfall
    (w : World) (account_id region : string) (tr tr1 : Log) (s : Session)
    (Hs : _get_account_session w account_id tr = (Val (Some s), tr1)) :
  let metric log q := cloudwatch_get_metric_statistics w log s region q in
  let tr2 := (tr1 ++ [GetMetricStatistics s region (trail_events_query region)])%list in
  let tr3 := (tr2 ++ [GetMetricStatistics s region call_count_query])%list in
  let from_resources log :=
    match ec2_describe_instances w log s region with
    | Raised =>
        estimate_cloudtrail_events w account_id region tr
        = (Val 1000000%Q, (log ++ [DescribeInstances s region])%list)
    | Val reservations =>
        let log1 := (log ++ [DescribeInstances s region])%list in
        match iam_list_users w log1 s with
        | Raised =>
            estimate_cloudtrail_events w account_id region tr
            = (Val 1000000%Q, (log1 ++ [ListUsers s])%list)
        | Val users =>
            let log2 := (log1 ++ [ListUsers s])%list in
            match iam_list_roles w log2 s with
            | Raised =>
                estimate_cloudtrail_events w account_id region tr
                = (Val 1000000%Q, (log2 ++ [ListRoles s])%list)
            | Val roles =>
                estimate_cloudtrail_events w account_id region tr
                = (Val (inject_Z
                          (Z.max ((instance_count_of reservations
                                   + Z.of_nat (length users)
                                   + Z.of_nat (length roles)) * 5000) 100000)),
                   (log2 ++ [ListRoles s])%list)
            end
        end
    end in
  match metric tr1 (trail_events_query region) with
  | Val (d :: ds) =>
      estimate_cloudtrail_events w account_id region tr
      = (Val (py_sum (d :: ds) / inject_Z (Z.of_nat (length (d :: ds))) * 30)%Q, tr2)
  | Raised =>
      estimate_cloudtrail_events w account_id region tr = (Val 1000000%Q, tr2)
  | Val [] =>
      match metric tr2 call_count_query with
      | Val (d :: ds) =>
          estimate_cloudtrail_events w account_id region tr
          = (Val (py_sum (d :: ds) / inject_Z (Z.of_nat (length (d :: ds)))
                  * 30 * 0.15)%Q, tr3)
      | Val [] | Raised => from_resources tr3
      end
  end.
Proof.
  intros metric tr2 tr3 from_resources.
  subst metric from_resources tr3 tr2; cbv beta.
  unfold estimate_cloudtrail_events, events_from_call_count, events_from_resources,
    get_metric_statistics.
  run_eff. rewrite Hs.
  destruct (cloudwatch_get_metric_statistics w tr1 s region (trail_events_query region))
    as [[|d ds]|]; [|reflexivity|reflexivity].
  destruct (cloudwatch_get_metric_statistics w _ s region call_count_query)
    as [[|d ds]|]; [|reflexivity|].
  all: destruct (ec2_describe_instances w _ s region); [|reflexivity].
  all: destruct (iam_list_users w _ s); [|reflexivity].
  all: destruct (iam_list_roles w _ s); reflexivity.
Qed.

(** In [trail_metric_error_world] the trail-event query raises and the
    estimate is the default after that single query. *)
Lemma estimate_cloudtrail_events_waterfall_witness :
  estimate_cloudtrail_events trail_metric_error_world management_account "us-east-1" []
  = (Val 1000000%Q,
     [GetCallerIdentity;
      GetMetricStatistics BaseSession "us-east-1" (trail_events_query "us-east-1")]).
Proof.
  exact (estimate_cloudtrail_events_waterfall trail_metric_error_world
           management_account "us-east-1" [] [GetCallerIdentity] BaseSession eq_refl).
Defined.

(** ** Egress volume *)

(** [_get_account_session] raises only when the caller-identity request
    raises. *)
Lemma get_account_session_raises (w : World) (account_id : string) (tr tr1 : Log) :
  _get_account_session w account_id tr = (Raised, tr1) ->
  sts_get_caller_identity w tr = Raised.
Proof.
  unfold _get_account_session, alternative_role_names.
  cbn [try_alternative_roles]. unfold assume_role. run_eff.
  destruct (sts_get_caller_identity w tr); [|reflexivity].
  destruct (String.eqb account_id a); [discriminate|].
  repeat match goal with
         | |- context [sts_assume_role w ?l ?a ?n] =>
             destruct (sts_assume_role w l a n)
         end; discriminate.
Qed.

(** The event estimator raises only when its own credential resolution
    raises, that is when the caller-identity request raises. *)
Lemma estimate_cloudtrail_events_raises
    (w : World) (account_id region : string) (tr tr1 : Log) :
  estimate_cloudtrail_events w account_id region tr = (Raised, tr1) ->
  sts_get_caller_identity w tr = Raised.
Proof.
  unfold estimate_cloudtrail_events, events_from_call_count, events_from_resources,
    get_metric_statistics.
  run_eff.
  destruct (_get_account_session w account_id tr) as [[[s|]|] tr0] eqn:Hs.
  - repeat match goal with
           | |- context [match ?x with _ => _ end] =>
               match x with
               | context [match _ with _ => _ end] => fail 1
               | _ => destruct x
               end
           end; discriminate.
  - discriminate.
  - intros _. eapply get_account_session_raises; eassumption.
Qed.

(** C7.  With a session [s], the egress estimate is the tier-1 value when
    the bytes-delivered query has datapoints; when that query returns no
    datapoint, the event waterfall is run again and the estimate is its
    result x 1.5 x 1024 / 1024^3.  The default 5 comes back only when the
    bytes-delivered query raises or the second run of the event waterfall
    raises, which it does only when the caller-identity request of its own
    credential resolution raises. *)
Theorem estimate_data_transfer_tiers
    (w : World) (account_id region : string) (tr tr1 : Log) (s : Session)
    (Hs : _get_account_session w account_id tr = (Val (Some s), tr1)) :
  let tr2 := (tr1 ++ [GetMetricStatistics s region (bytes_delivered_query region)])%list in
  match cloudwatch_get_metric_statistics w tr1 s region (bytes_delivered_query region) with
  | Val [] =>
      match estimate_cloudtrail_events w account_id region tr2 with
      | (Val event_count, tr3) =>
          estimate_data_transfer w account_id region tr
          = (Val ((event_count * 1.5 * 1024) / (1024 * 1024 * 1024))%Q, tr3)
      | (Raised, tr3) =>
          estimate_data_transfer w account_id region tr = (Val 5%Q, tr3)
          /\ sts_get_caller_identity w tr2 = Raised
      end
  | Val (d :: ds) =>
      estimate_data_transfer w account_id region tr
      = (Val ((py_sum (d :: ds) / inject_Z (Z.of_nat (length (d :: ds))) * 30)
              / (1024 * 1024 * 1024))%Q, tr2)
  | Raised => estimate_data_transfer w account_id region tr = (Val 5%Q, tr2)
  end.
Proof.
  intros tr2. subst tr2.
  unfold estimate_data_transfer, get_metric_statistics. run_eff. rewrite Hs.
  destruct (cloudwatch_get_metric_statistics w tr1 s region (bytes_delivered_query region))
    as [[|d ds]|]; [|reflexivity|reflexivity].
  destruct (estimate_cloudtrail_events w account_id region _) as [[ev|] tr3] eqn:Hev;
    [reflexivity|].
  split; [reflexivity|].
  eapply estimate_cloudtrail_events_raises; eassumption.
Qed.

(** In [quiet_trail_world] there is no bytes-delivered datapoint; the event
    waterfall gives 200000 x 30 events and the egress estimate is that
    number x 1.5 x 1024 / 1024^3. *)
Lemma estimate_data_transfer_tiers_witness :
  let trail := [100000%Q; 200000%Q; 300000%Q] in
  estimate_data_transfer quiet_trail_world management_account "us-east-1" []
  = (Val (((py_sum trail / inject_Z 3 * 30) * 1.5 * 1024) / (1024 * 1024 * 1024))%Q,
     [GetCallerIdentity;
      GetMetricStatistics BaseSession "us-east-1" (bytes_delivered_query "us-east-1");
      GetCallerIdentity;
      GetMetricStatistics BaseSession "us-east-1" (trail_events_query "us-east-1")]).
Proof.
  exact (estimate_data_transfer_tiers quiet_trail_world management_account "us-east-1"
           [] [GetCallerIdentity] BaseSession eq_refl).
Defined.

(** ** The cost model *)

Lemma prefix_sa_not_ap_me (region : string) :
  String.prefix "sa-" region = true ->
  String.prefix "ap-" region || String.prefix "me-" region = false.
Proof.
  destruct region as [|c region]; [discriminate|].
  cbn [String.prefix].
  destruct (ascii_dec "s"%char c) as [<-|]; [intros _; reflexivity|discriminate].
Qed.

(** C4.  The egress cost is the monthly egress volume times a rate read off
    the region's prefix: 0.12 for ["sa-"], 0.11 for ["ap-"] or ["me-"],
    0.09 for every other string. *)
Theorem data_egress_cost_by_prefix
    (self : Estimator) (region : string) (monthly_events monthly_egress_gb : Q)
    (s3_data : S3Data) (ec2_data : EC2Data) :
  data_egress_cost (costs_of self region monthly_events monthly_egress_gb s3_data ec2_data)
  = (monthly_egress_gb
     * (if String.prefix "sa-" region then 0.12
        else if String.prefix "ap-" region || String.prefix "me-" region then 0.11
        else 0.09))%Q.
Proof.
  unfold costs_of, egress_rate; cbn [data_egress_cost].
  destruct (String.prefix "sa-" region) eqn:Hsa.
  - rewrite (prefix_sa_not_ap_me region Hsa). reflexivity.
  - reflexivity.
Qed.

(** C8.  The compute-scan cost is
    linux x 0.5 x 0.085 x 4 + linux x 100 x 0.05 x (1/30) when the feature
    is on and the Linux count is positive, and 0 otherwise.  For the 14
    Linux instances of the default inventory the two terms are 2.38 and
    14 x 100 x 0.05 / 30, which lies between 2.333 and 2.334. *)
Theorem snapshot_cost_formula
    (self : Estimator) (region : string) (monthly_events monthly_egress_gb : Q)
    (s3_data : S3Data) (ec2_data : EC2Data) :
  snapshot_cost (costs_of self region monthly_events monthly_egress_gb s3_data ec2_data)
  = (if include_snapshot self && (ec2_linux ec2_data >? 0)%Z
     then inject_Z (ec2_linux ec2_data) * 0.5 * 0.085 * 4
          + inject_Z (ec2_linux ec2_data) * 100 * 0.05 * (1 / 30)
     else 0)%Q
  /\ ec2_linux default_ec2_data = 14%Z
  /\ (snapshot_compute_cost_of 14 == 2.38)%Q
  /\ (snapshot_storage_cost_of 14 == 14 * 100 * 0.05 / 30)%Q
  /\ (2.333 < snapshot_storage_cost_of 14 < 2.334)%Q.
Proof.
  repeat split; try reflexivity.
Qed.

(** ** Behaviour without a session *)







(** ** Region scope *)

(** Probing never raises. *)
Lemma probe_regions_returns (w : World) (s : Session) (catalog : list string) :
  forall enabled_regions tr, exists enabled tr',
    probe_regions w s catalog enabled_regions tr = (Val enabled, tr').
Proof.
  induction catalog as [|region rest IH]; intros enabled_regions tr; cbn [probe_regions].
  - unfold ret. eauto.
  - run_eff. destruct (ec2_describe_vpcs w tr s region); apply IH.
Qed.

(** When the answer to a probe does not depend on the log, probing keeps
    exactly the catalog regions whose probe returns, in catalog order. *)
Lemma probe_regions_static
    (w : World) (s : Session) (reachable : string -> bool)
    (Hstatic : forall tr region,
        ec2_describe_vpcs w tr s region = if reachable region then Val tt else Raised)
    (catalog : list string) :
  forall enabled_regions tr,
    fst (probe_regions w s catalog enabled_regions tr)
    = Val (enabled_regions ++ filter reachable catalog)%list.
Proof.
  induction catalog as [|region rest IH]; intros enabled_regions tr; cbn [probe_regions].
  - cbn. rewrite app_nil_r. reflexivity.
  - run_eff. rewrite Hstatic.
    destruct (reachable region); rewrite IH; [rewrite <- app_assoc|]; reflexivity.
Qed.

(** C9 as stated fails: [all_regions_estimator] was built with the explicit
    list [eu-west-1] and the all-regions switch; for the member account,
    whose credential resolution fails, the resolver returns the whole
    catalog, not the explicit list.  Built without an explicit list, it
    returns the whole catalog as well, not the default [us-east-1]. *)
Lemma enabled_regions_counterexample :
  fst (_get_account_session management_world member_account []) = Val None
  /\ fst (get_enabled_regions_for_account management_world all_regions_estimator
                                          member_account [])
     = Val fallback_catalog
  /\ explicit_or_default (Some ["eu-west-1"]) = ["eu-west-1"]
  /\ fallback_catalog <> explicit_or_default (Some ["eu-west-1"])
  /\ fst (get_enabled_regions_for_account management_world
            (constructed None true false false fallback_catalog [member])
            member_account [])
     = Val fallback_catalog
  /\ fallback_catalog <> explicit_or_default None.
Proof. repeat split; try reflexivity; discriminate. Qed.

(** C9, amended.  The resolver returns [self.regions] when credential
    resolution returns [None], with no request after those of the
    resolution, and also when [describe_regions] raised and probing the
    catalog kept no region; when [describe_regions] returns, the result is
    the list of returned region names whose opt-in status is not
    [not-opted-in].  [self.regions] is the caller's explicit list, or
    [us-east-1] without one, only when the all-regions switch is off; with
    the switch on it is the whole region catalog. *)
Theorem enabled_regions_resolution
    (w : World) (self : Estimator) (account_id : string) (tr : Log) :
  match _get_account_session w account_id tr with
  | (Raised, tr1) =>
      get_enabled_regions_for_account w self account_id tr = (Raised, tr1)
  | (Val None, tr1) =>
      get_enabled_regions_for_account w self account_id tr = (Val (regions self), tr1)
  | (Val (Some s), tr1) =>
      let tr2 := (tr1 ++ [DescribeRegions s])%list in
      match ec2_describe_regions w tr1 s with
      | Val response =>
          get_enabled_regions_for_account w self account_id tr
          = (Val (map RegionName
                      (filter (fun r => match OptInStatus r with
                                        | Some status =>
                                            negb (String.eqb status "not-opted-in")
                                        | None => true
                                        end) response)), tr2)
      | Raised =>
          match probe_regions w s (all_available_regions self) [] tr2 with
          | (Val [], tr3) =>
              get_enabled_regions_for_account w self account_id tr
              = (Val (regions self), tr3)
          | (Val (region :: enabled), tr3) =>
              get_enabled_regions_for_account w self account_id tr
              = (Val (region :: enabled), tr3)
          | (Raised, _) => False
          end
      end
  end
  /\ (forall regions_arg include_all dspm snapshot catalog active_accounts,
        regions (constructed regions_arg include_all dspm snapshot catalog
                             active_accounts)
        = if include_all then catalog
          else match regions_arg with
               | None | Some [] => ["us-east-1"]
               | Some rs => rs
               end).
Proof.
  split; [|reflexivity].
  unfold get_enabled_regions_for_account. run_eff.
  destruct (_get_account_session w account_id tr) as [[[s|]|] tr1];
    [|reflexivity|reflexivity].
  destruct (ec2_describe_regions w tr1 s); [reflexivity|].
  destruct (probe_regions_returns w s (all_available_regions self) []
              (tr1 ++ [DescribeRegions s])%list) as (enabled & tr3 & Hprobe).
  rewrite Hprobe. destruct enabled; reflexivity.
Qed.

(** ** Compute inventory *)

















(** ** Rounding and the total *)

(** C5 as stated fails: in [small_bucket_world] the storage inventory
    measures 1/1024 GB, the estimator hands 0.00 GB to the cost model, and
    the total computed from it differs from the total computed on the
    unrounded inventory. *)
Lemma total_cost_rounding_counterexample :
  let w := small_bucket_world in
  let self := storage_estimator in
  let region := "us-east-1" in
  exists count total avg tr1 ev eg s3 ec2 tr2,
    s3_inventory w BaseSession region [GetCallerIdentity]
    = (Val (count, total, avg), tr1)
    /\ gather_metrics w self management_account region [] = (Val (ev, eg, s3, ec2), tr2)
    /\ s3_count s3 = count
    /\ (total == 1 / 1024)%Q
    /\ (s3_total_size_gb s3 == 0)%Q
    /\ (total_cost (costs_of self region ev eg s3 ec2) == 10.79)%Q
    /\ ~ (total_cost (costs_of self region ev eg s3 ec2)
          == total_cost (costs_of self region ev eg (mkS3Data count total avg) ec2))%Q.
Proof.
  cbv zeta. do 9 eexists.
  split; [vm_compute; reflexivity|].
  split; [vm_compute; reflexivity|].
  repeat split; try (vm_compute; reflexivity).
  intros H. vm_compute in H. discriminate.
Qed.

(** C5, amended.  The total of a loop iteration is the sum of its six
    components, each computed from the usage metrics without any rounding:
    events / 1,000,000 x 1.00, egress x rate, the fixed overhead 0.10, the
    trail cost 0, the storage-scan cost and the compute-scan cost.  The
    row stores each component and the total rounded to two decimals, and
    the event count truncated to an integer.  The storage metric is the
    exception: when the buckets were listed, the storage estimator returns
    the extrapolated total and average sizes already rounded to two
    decimals, and the storage-scan component, and with it the total, is
    computed from that rounded size. *)
Theorem total_cost_is_sum_of_components
    (w : World) (self : Estimator) (account_data : Account) (region : string) :
  let rate :=
    (if String.prefix "ap-" region || String.prefix "me-" region then 0.11
     else if String.prefix "sa-" region then 0.12
     else 0.09)%Q in
  let storage_scan (count : Z) (size_gb : Q) :=
    (if include_dspm self && (count >? 0)%Z
     then 24 * 0.34 * 1 + size_gb * 0.045 * 1 + 0.045 * 24 * 1
     else 0)%Q in
  let compute_scan (linux : Z) :=
    (if include_snapshot self && (linux >? 0)%Z
     then inject_Z linux * 0.5 * 0.085 * 4 + inject_Z linux * 100 * 0.05 * (1 / 30)
     else 0)%Q in
  (forall ev eg s3 ec2,
      let c := costs_of self region ev eg s3 ec2 in
      let row := result_row self account_data region ev eg s3 ec2 in
      let event_delivery := (ev / 1000000 * 1.00)%Q in
      let egress := (eg * rate)%Q in
      let storage := storage_scan (s3_count s3) (s3_total_size_gb s3) in
      let compute := compute_scan (ec2_linux ec2) in
      let total := (event_delivery + egress + 0.10 + 0 + storage + compute)%Q in
      eventbridge_cost c = event_delivery
      /\ data_egress_cost c = egress
      /\ lambda_cost c = 0.10%Q
      /\ cloudtrail_cost c = 0%Q
      /\ dspm_cost c = storage
      /\ snapshot_cost c = compute
      /\ total_cost c = total
      /\ row_total_cost row = py_round2 total
      /\ row_eventbridge_cost row = py_round2 event_delivery
      /\ row_data_egress_cost row = py_round2 egress
      /\ row_lambda_cost row = py_round2 0.10
      /\ row_cloudtrail_cost row = py_round2 0
      /\ row_dspm_cost row = py_round2 storage
      /\ row_snapshot_cost row = py_round2 compute
      /\ row_monthly_events row = py_int ev
      /\ row_monthly_egress_gb row = py_round2 eg
      /\ row_s3_storage_gb row = py_round2 (s3_total_size_gb s3))
  /\ (forall tr s tr1 count total_size avg tr2,
        include_dspm self = true ->
        _get_account_session w (acc_id account_data) tr = (Val (Some s), tr1) ->
        s3_inventory w s region tr1 = (Val (count, total_size, avg), tr2) ->
        estimate_s3_buckets w self (acc_id account_data) region tr
        = (Val (mkS3Data count (py_round2 total_size) (py_round2 avg)), tr2)
        /\ forall ev eg ec2,
            let c := costs_of self region ev eg
                       (mkS3Data count (py_round2 total_size) (py_round2 avg)) ec2 in
            dspm_cost c
            = (if (count >? 0)%Z
               then 24 * 0.34 * 1 + py_round2 total_size * 0.045 * 1 + 0.045 * 24 * 1
               else 0)%Q
            /\ total_cost c
               = (ev / 1000000 * 1.00 + eg * rate + 0.10 + 0
                  + (if (count >? 0)%Z
                     then 24 * 0.34 * 1 + py_round2 total_size * 0.045 * 1
                          + 0.045 * 24 * 1
                     else 0)
                  + compute_scan (ec2_linux ec2))%Q).
Proof.
  cbv zeta. split.
  - intros ev eg s3 ec2. repeat split; reflexivity.
  - intros tr s tr1 count total_size avg tr2 Hdspm Hs Hinv. split.
    + unfold estimate_s3_buckets. rewrite Hdspm. run_eff. rewrite Hs, Hinv. reflexivity.
    + intros ev eg ec2. unfold costs_of, dspm_cost_of, egress_rate, snapshot_cost_of,
        snapshot_compute_cost_of, snapshot_storage_cost_of.
      cbn [dspm_cost total_cost s3_count s3_total_size_gb].
      rewrite Hdspm. split; reflexivity.
Qed.

(** In [small_bucket_world] the listed bucket measures 1/1024 GB and the
    estimator returns it as 0 GB. *)
Lemma total_cost_is_sum_of_components_witness :
  exists total avg tr2,
    (total == 1 / 1024)%Q
    /\ estimate_s3_buckets small_bucket_world storage_estimator management_account
                           "us-east-1" []
       = (Val (mkS3Data 1 (py_round2 total) (py_round2 avg)), tr2)
    /\ (py_round2 total == 0)%Q.
Proof.
  destruct (s3_inventory small_bucket_world BaseSession "us-east-1" [GetCallerIdentity])
    as [[[[count total] avg]|] tr2] eqn:Hinv; [|discriminate Hinv].
  assert (Hcount : count = 1%Z) by (vm_compute in Hinv; congruence).
  assert (Htotal : (total == 1 / 1024)%Q)
    by (vm_compute in Hinv; injection Hinv as _ <- _ _; reflexivity).
  assert (Hround : (py_round2 total == 0)%Q)
    by (vm_compute in Hinv; injection Hinv as _ <- _ _; reflexivity).
  subst count.
  exists total, avg, tr2. split; [exact Htotal|]. split; [|exact Hround].
  exact (proj1 (proj2 (total_cost_is_sum_of_components small_bucket_world
                         storage_estimator (mkAccount management_account "management")
                         "us-east-1")
                 [] BaseSession [GetCallerIdentity] 1%Z total avg tr2
                 eq_refl eq_refl Hinv)).
Defined.

(** ** The run *)

Lemma try_except_ret_returns {S A : Type} (body : Eff S A) (a : A) (st : S) :
  exists v st', try_except body (ret a) st = (Val v, st').
Proof.
  unfold try_except, ret. destruct (body st) as [[v|] st']; eauto.
Qed.

Section IdentityKnown.

Variable w : World.
Variable self : Estimator.
Hypothesis Hid : identity_known w.

Lemma get_account_session_returns (account_id : string) (tr : Log) :
  exists session tr1, _get_account_session w account_id tr = (Val session, tr1).
Proof.
  destruct (_get_account_session w account_id tr) as [[session|] tr1] eqn:Hs; eauto.
  exfalso. apply (Hid tr). eapply get_account_session_raises; eassumption.
Qed.

Lemma estimate_cloudtrail_events_returns (account_id region : string) (tr : Log) :
  exists events tr1,
    estimate_cloudtrail_events w account_id region tr = (Val events, tr1).
Proof.
  destruct (estimate_cloudtrail_events w account_id region tr) as [[events|] tr1] eqn:He;
    eauto.
  exfalso. apply (Hid tr). eapply estimate_cloudtrail_events_raises; eassumption.
Qed.

Lemma estimate_data_transfer_returns (account_id region : string) (tr : Log) :
  exists egress tr1,
    estimate_data_transfer w account_id region tr = (Val egress, tr1).
Proof.
  unfold estimate_data_transfer, bind.
  destruct (get_account_session_returns account_id tr) as (session & tr1 & ->).
  destruct session as [s|]; [apply try_except_ret_returns|unfold ret; eauto].
Qed.

Lemma estimate_s3_buckets_returns (account_id region : string) (tr : Log) :
  exists s3_data tr1,
    estimate_s3_buckets w self account_id region tr = (Val s3_data, tr1).
Proof.
  unfold estimate_s3_buckets, bind.
  destruct (include_dspm self); cbn [negb]; [|unfold ret; eauto].
  destruct (get_account_session_returns account_id tr) as (session & tr1 & ->).
  destruct session as [s|]; [apply try_except_ret_returns|unfold ret; eauto].
Qed.

Lemma estimate_ec2_instances_returns (account_id region : string) (tr : Log) :
  exists ec2_data tr1,
    estimate_ec2_instances w self account_id region tr = (Val ec2_data, tr1).
Proof.
  unfold estimate_ec2_instances, bind.
  destruct (include_snapshot self); cbn [negb]; [|unfold ret; eauto].
  destruct (get_account_session_returns account_id tr) as (session & tr1 & ->).
  destruct session as [s|]; [apply try_except_ret_returns|unfold ret; eauto].
Qed.

Lemma gather_metrics_returns (account_id region : string) (tr : Log) :
  exists m tr1, gather_metrics w self account_id region tr = (Val m, tr1).
Proof.
  unfold gather_metrics, bind.
  destruct (estimate_cloudtrail_events_returns account_id region tr) as (ev & tr1 & ->).
  destruct (estimate_data_transfer_returns account_id region tr1) as (eg & tr2 & ->).
  destruct (estimate_s3_buckets_returns account_id region tr2) as (s3 & tr3 & Hs3).
  destruct (include_dspm self).
  - rewrite Hs3.
    destruct (estimate_ec2_instances_returns account_id region tr3) as (ec2 & tr4 & Hec2).
    destruct (include_snapshot self); [rewrite Hec2|]; unfold ret; eauto.
  - unfold ret at 1.
    destruct (estimate_ec2_instances_returns account_id region tr2) as (ec2 & tr4 & Hec2).
    destruct (include_snapshot self); [rewrite Hec2|]; unfold ret; eauto.
Qed.

(** One loop iteration appends one row, keyed by the account and the
    region. *)
Lemma analyze_region_appends (account_data : Account) (region : string) (st : St) :
  exists tr' row,
    analyze_region w self account_data region st
    = (Val tt, mkSt tr' (results st ++ [row])%list)
    /\ row_key row = (acc_id account_data, region).
Proof.
  unfold analyze_region, bind, lift, append_result.
  destruct (gather_metrics_returns (acc_id account_data) region (trace st))
    as ([[[ev eg] s3] ec2] & tr1 & ->).
  cbn [trace results]. do 2 eexists. split; reflexivity.
Qed.

Lemma account_regions_of_returns (account_id : string) (tr : Log) :
  exists account_regions tr1,
    account_regions_of w self account_id tr = (Val account_regions, tr1).
Proof.
  unfold account_regions_of, get_enabled_regions_for_account, bind.
  destruct (include_all_regions self); [|unfold ret; eauto].
  destruct (get_account_session_returns account_id tr) as (session & tr1 & ->).
  destruct session as [s|]; [apply try_except_ret_returns|unfold ret; eauto].
Qed.

Lemma region_loop_appends (account_data : Account) (account_regions : list string) :
  forall st, exists tr' rows,
    for_each account_regions tt (fun _ region => analyze_region w self account_data region) st
    = (Val tt, mkSt tr' (results st ++ rows)%list)
    /\ map row_key rows = map (pair (acc_id account_data)) account_regions.
Proof.
  induction account_regions as [|region rest IH]; intros st; cbn [for_each].
  - exists (trace st), []. rewrite app_nil_r. destruct st. split; reflexivity.
  - unfold bind.
    destruct (analyze_region_appends account_data region st) as (tr1 & row & -> & Hkey).
    destruct (IH (mkSt tr1 (results st ++ [row])%list)) as (tr2 & rows & -> & Hkeys).
    exists tr2, (row :: rows). cbn [results map].
    rewrite <- app_assoc, Hkey, Hkeys. split; reflexivity.
Qed.

Lemma calculate_costs_appends (account_data : Account) (st : St) :
  exists tr' rows,
    calculate_costs w self account_data st = (Val tt, mkSt tr' (results st ++ rows)%list)
    /\ map row_key rows
       = map (pair (acc_id account_data)) (scope_at w self (acc_id account_data) (trace st)).
Proof.
  unfold calculate_costs, scope_at, bind, lift.
  destruct (account_regions_of_returns (acc_id account_data) (trace st))
    as (account_regions & tr1 & ->).
  destruct (region_loop_appends account_data account_regions (mkSt tr1 (results st)))
    as (tr2 & rows & -> & Hkeys).
  exists tr2, rows. split; [reflexivity|exact Hkeys].
Qed.

Lemma run_tasks_appends (todo : list Account) :
  forall st, exists tr' rows,
    run_tasks w self todo st = (Val tt, mkSt tr' (results st ++ rows)%list)
    /\ map row_key rows = keys_of (run_scopes w self todo st).
Proof.
  induction todo as [|account_data rest IH]; intros st; cbn [run_tasks run_scopes].
  - exists (trace st), []. rewrite app_nil_r. destruct st. split; reflexivity.
  - unfold bind, try_except.
    destruct (calculate_costs_appends account_data st) as (tr1 & rows1 & -> & Hkeys1).
    destruct (IH (mkSt tr1 (results st ++ rows1)%list)) as (tr2 & rows2 & -> & Hkeys2).
    exists tr2, (rows1 ++ rows2)%list. cbn [results snd].
    rewrite <- app_assoc. split; [reflexivity|].
    unfold keys_of in *. cbn [flat_map fst snd].
    rewrite map_app, Hkeys1, Hkeys2. reflexivity.
Qed.

End IdentityKnown.

Lemma run_scopes_explicit (w : World) (self : Estimator) (todo : list Account) :
  include_all_regions self = false ->
  forall st,
    keys_of (run_scopes w self todo st)
    = flat_map (fun account_data => map (pair (acc_id account_data)) (regions self)) todo.
Proof.
  intros Hexplicit.
  induction todo as [|account_data rest IH]; intros st; [reflexivity|].
  cbn [run_scopes]. unfold keys_of in *. cbn [flat_map fst snd].
  rewrite IH. unfold scope_at, account_regions_of. rewrite Hexplicit. reflexivity.
Qed.

Lemma rows_for_absent (account_id region : string) (rows : list Row) :
  ~ In (account_id, region) (map row_key rows) ->
  rows_for account_id region rows = [].
Proof.
  induction rows as [|r rows IH]; intros Hnot; [reflexivity|].
  cbn [rows_for filter map In] in *. fold (rows_for account_id region rows).
  destruct (String.eqb_spec (row_account_id r) account_id) as [Ha|Ha];
    destruct (String.eqb_spec (row_region r) region) as [Hr|Hr]; cbn [andb];
    try (apply IH; tauto).
  exfalso. apply Hnot. left. unfold row_key. congruence.
Qed.

(** A key that occurs once among the keys has exactly one row. *)
Lemma rows_for_unique (account_id region : string) (rows : list Row) :
  NoDup (map row_key rows) ->
  In (account_id, region) (map row_key rows) ->
  length (rows_for account_id region rows) = 1%nat.
Proof.
  induction rows as [|r rows IH]; intros Hnodup Hin; [destruct Hin|].
  cbn [map] in Hnodup. inversion Hnodup as [|k ks Hfresh Hrest]; subst.
  cbn [rows_for filter]. fold (rows_for account_id region rows).
  destruct (String.eqb_spec (row_account_id r) account_id) as [Ha|Ha];
    destruct (String.eqb_spec (row_region r) region) as [Hr|Hr]; cbn [andb].
  - rewrite rows_for_absent; [reflexivity|].
    unfold row_key in Hfresh at 1. rewrite Ha, Hr in Hfresh. exact Hfresh.
  - apply IH; [assumption|]. destruct Hin as [Hk|Hin]; [|assumption].
    unfold row_key in Hk. congruence.
  - apply IH; [assumption|]. destruct Hin as [Hk|Hin]; [|assumption].
    unfold row_key in Hk. congruence.
  - apply IH; [assumption|]. destruct Hin as [Hk|Hin]; [|assumption].
    unfold row_key in Hk. congruence.
Qed.

(** C3 as stated fails: with the region list [us-east-1; us-east-1] the
    run leaves two rows for the pair (member account, us-east-1). *)
Lemma run_rows_counterexample :
  exists rows st',
    run management_world repeated_region_estimator (mkSt [] []) = (Val rows, st')
    /\ In member (accounts repeated_region_estimator)
    /\ In "us-east-1" (scope_at management_world repeated_region_estimator
                                member_account [])
    /\ length (rows_for member_account "us-east-1" rows) = 2%nat.
Proof.
  do 2 eexists. split; [vm_compute; reflexivity|].
  repeat split; vm_compute; auto.
Qed.

(** A failure that [calculate_costs] does not absorb: when the
    caller-identity request raises, the task of the account ends at its
    first estimator and leaves no row. *)
Lemma run_identity_failure_leaves_no_row :
  fst (run dark_world plain_estimator (mkSt [] [])) = Val []
  /\ keys_of (run_scopes dark_world plain_estimator (accounts plain_estimator)
                         (mkSt [] []))
     = [(member_account, "us-east-1")].
Proof. split; vm_compute; reflexivity. Qed.

Lemma rows_for_entries (account_id region : string) (rows : list Row) :
  length (rows_for account_id region rows)
  = entries_for account_id region (map row_key rows).
Proof.
  unfold rows_for, entries_for.
  induction rows as [|r rows IH]; [reflexivity|].
  cbn [filter map row_key fst snd].
  destruct (String.eqb (row_account_id r) account_id && String.eqb (row_region r) region);
    cbn [length]; rewrite IH; reflexivity.
Qed.

(** C3, amended.  Take a run in which the caller-identity request never
    raises.  The run ends, and the rows it adds to the collection are, up
    to their order, one row for each entry of [self.accounts] and each
    entry of the region list resolved for that account: [self.regions] for
    every account without the all-regions switch, the resolver's answer
    with it.  So a pair has as many rows as it has entries in these lists,
    and exactly one row when no pair is repeated among them. *)
Theorem run_one_row_per_scope_entry
    (w : World) (self : Estimator) (st : St) (Hid : identity_known w) :
  exists tr' rows,
    run w self st = (Val (results st ++ rows)%list, mkSt tr' (results st ++ rows)%list)
    /\ Permutation (map row_key rows) (keys_of (run_scopes w self (accounts self) st))
    /\ (include_all_regions self = false ->
        Permutation (map row_key rows)
          (flat_map (fun account_data =>
                       map (pair (acc_id account_data)) (regions self))
                    (accounts self)))
    /\ (forall account_id region,
          length (rows_for account_id region rows)
          = entries_for account_id region
              (keys_of (run_scopes w self (accounts self) st)))
    /\ (NoDup (keys_of (run_scopes w self (accounts self) st)) ->
        forall account_id region,
          In (account_id, region) (keys_of (run_scopes w self (accounts self) st)) ->
          length (rows_for account_id region rows) = 1%nat).
Proof.
  destruct (run_tasks_appends w self Hid (accounts self) st) as (tr' & rows & Hrun & Hkeys).
  exists tr', rows. split; [|split; [|split; [|split]]].
  - unfold run, bind. rewrite Hrun. reflexivity.
  - rewrite Hkeys. apply Permutation_refl.
  - intros Hexplicit. rewrite Hkeys, (run_scopes_explicit w self _ Hexplicit).
    apply Permutation_refl.
  - intros account_id region. rewrite rows_for_entries, Hkeys. reflexivity.
  - intros Hnodup account_id region Hin. rewrite <- Hkeys in Hnodup, Hin.
    apply rows_for_unique; assumption.
Qed.

(** In [management_world] the default estimator leaves exactly one row, for
    the member account in [us-east-1]. *)
Lemma run_one_row_per_scope_entry_witness :
  exists tr' rows,
    run management_world plain_estimator (mkSt [] []) = (Val rows, mkSt tr' rows)
    /\ Permutation (map row_key rows) [(member_account, "us-east-1")]
    /\ length (rows_for member_account "us-east-1" rows) = 1%nat.
Proof.
  assert (Hid : identity_known management_world)
    by (intros log H; discriminate H).
  destruct (run_one_row_per_scope_entry management_world plain_estimator (mkSt [] []) Hid)
    as (tr' & rows & Hrun & Hkeys & _ & Hcount & _).
  exists tr', rows. split; [exact Hrun|]. split; [exact Hkeys|].
  exact (Hcount member_account "us-east-1").
Defined.

(** ** Further properties: rounding *)

Lemma round_half_even_close (x : Q) :
  (x - (1 # 2) <= inject_Z (round_half_even x) <= x + (1 # 2))%Q.
Proof.
  unfold round_half_even.
  pose proof (Qfloor_le x) as Hlo.
  pose proof (Qlt_floor x) as Hhi.
  rewrite inject_Z_plus in Hhi. change (inject_Z 1) with 1%Q in Hhi.
  destruct (Qcompare (x - inject_Z (Qfloor x)) (1 # 2)) eqn:Hcmp.
  - apply Qeq_alt in Hcmp.
    destruct (Z.even (Qfloor x)).
    + split; lra.
    + rewrite inject_Z_plus. change (inject_Z 1) with 1%Q. split; lra.
  - apply Qlt_alt in Hcmp. split; lra.
  - apply Qgt_alt in Hcmp. rewrite inject_Z_plus. change (inject_Z 1) with 1%Q.
    split; lra.
Qed.

(** [round(x, 2)] moves a value by at most half a cent. *)
Lemma py_round2_close (x : Q) :
  (x - (1 # 200) <= py_round2 x <= x + (1 # 200))%Q.
Proof.
  unfold py_round2. rewrite Qred_correct.
  pose proof (round_half_even_close (x * 100)) as [Hlo Hhi].
  set (n := inject_Z (round_half_even (x * 100))) in *.
  unfold Qdiv. change (/ 100)%Q with (1 # 100)%Q.
  split; lra.
Qed.

Lemma py_round2_nonneg (x : Q) : (0 <= x)%Q -> (0 <= py_round2 x)%Q.
Proof.
  intros Hx. unfold py_round2. rewrite Qred_correct.
  assert (Hn : (0 <= round_half_even (x * 100))%Z).
  { unfold round_half_even.
    assert (Hf : (0 <= Qfloor (x * 100))%Z).
    { change 0%Z with (Qfloor 0). apply Qfloor_resp_le. lra. }
    destruct (Qcompare _ _); [destruct (Z.even _)| |]; lia. }
  assert (Hq : (0 <= inject_Z (round_half_even (x * 100)))%Q).
  { unfold Qle. cbn. lia. }
  set (n := inject_Z (round_half_even (x * 100))) in *.
  unfold Qdiv. change (/ 100)%Q with (1 # 100)%Q. lra.
Qed.

(** X1.  The figures stored in a row are rounded one by one.  Each stored
    cost (event delivery, data egress, storage scan, compute scan and the
    total) is within one cent of the unrounded cost it is taken from; the
    fixed overhead and the trail cost are stored as 0.10 and 0.  So the
    stored total can differ from the sum of the stored components, by at
    most five cents.  For a non-negative event estimate the stored event
    count is the estimate with its fraction cut off. *)
Theorem row_rounding_drift
    (self : Estimator) (account_data : Account) (region : string)
    (ev eg : Q) (s3 : S3Data) (ec2 : EC2Data) :
  let c := costs_of self region ev eg s3 ec2 in
  let row := result_row self account_data region ev eg s3 ec2 in
  (eventbridge_cost c - (1 # 100) <= row_eventbridge_cost row
   <= eventbridge_cost c + (1 # 100))%Q
  /\ (data_egress_cost c - (1 # 100) <= row_data_egress_cost row
      <= data_egress_cost c + (1 # 100))%Q
  /\ (dspm_cost c - (1 # 100) <= row_dspm_cost row <= dspm_cost c + (1 # 100))%Q
  /\ (snapshot_cost c - (1 # 100) <= row_snapshot_cost row
      <= snapshot_cost c + (1 # 100))%Q
  /\ (total_cost c - (1 # 100) <= row_total_cost row <= total_cost c + (1 # 100))%Q
  /\ (row_lambda_cost row == 0.10)%Q
  /\ (row_cloudtrail_cost row == 0)%Q
  /\ (- (5 # 100)
      <= row_total_cost row
         - (row_eventbridge_cost row + row_data_egress_cost row
            + row_lambda_cost row + row_cloudtrail_cost row
            + row_dspm_cost row + row_snapshot_cost row)
      <= 5 # 100)%Q
  /\ ((0 <= ev)%Q ->
      (inject_Z (row_monthly_events row) <= ev
       < inject_Z (row_monthly_events row) + 1)%Q).
Proof.
  cbv zeta. unfold result_row, costs_of.
  cbn [row_total_cost row_eventbridge_cost row_data_egress_cost row_lambda_cost
       row_cloudtrail_cost row_dspm_cost row_snapshot_cost row_monthly_events
       total_cost eventbridge_cost data_egress_cost lambda_cost cloudtrail_cost
       dspm_cost snapshot_cost].
  set (eb := (ev / 1000000 * 1.00)%Q).
  set (de := (eg * egress_rate region)%Q).
  set (ds := dspm_cost_of self s3).
  set (sn := snapshot_cost_of self ec2).
  assert (Hl : (py_round2 0.10 == 0.10)%Q) by reflexivity.
  assert (Hc : (py_round2 0 == 0)%Q) by reflexivity.
  pose proof (py_round2_close eb) as [? ?].
  pose proof (py_round2_close de) as [? ?].
  pose proof (py_round2_close ds) as [? ?].
  pose proof (py_round2_close sn) as [? ?].
  pose proof (py_round2_close (eb + de + 0.10 + 0 + ds + sn)) as [? ?].
  repeat split; try lra.
  all: match goal with H : (0 <= ?e)%Q |- _ => clear - H; rename H into Hev end;
    unfold py_int; destruct ev as [n d];
    unfold Qle, Qlt, Qplus in *; cbn [Qnum Qden inject_Z] in *;
    rewrite Z.quot_div_nonneg by lia;
    pose proof (Z.mod_pos_bound n (Z.pos d) ltac:(lia));
    pose proof (Z.div_mod n (Z.pos d) ltac:(lia)); nia.
Qed.

(** A row whose stored total is not the sum of its stored components:
    three components end in half a cent and a bit. *)
Lemma row_rounding_drift_witness :
  let row := result_row plain_estimator member "us-east-1" 1006000 (56 # 1000)
                        (mkS3Data 0 0 0) (mkEC2Data 0 0 0 0) in
  (row_total_cost row == 1.11)%Q
  /\ (row_eventbridge_cost row + row_data_egress_cost row + row_lambda_cost row
      + row_cloudtrail_cost row + row_dspm_cost row + row_snapshot_cost row == 1.12)%Q
  /\ (inject_Z (row_monthly_events row) <= 1006000
      < inject_Z (row_monthly_events row) + 1)%Q.
Proof.
  split; [reflexivity|]. split; [reflexivity|].
  exact (proj2 (proj2 (proj2 (proj2 (proj2 (proj2 (proj2 (proj2
           (row_rounding_drift plain_estimator member "us-east-1" 1006000 (56 # 1000)
              (mkS3Data 0 0 0) (mkEC2Data 0 0 0 0))))))))) ltac:(discriminate)).
Defined.

(** ** Further properties: the cost model *)

Lemma egress_rate_bounds (region : string) :
  (0.09 <= egress_rate region <= 0.12)%Q.
Proof.
  unfold egress_rate.
  destruct (String.prefix "ap-" region || String.prefix "me-" region);
    [|destruct (String.prefix "sa-" region)]; split; lra.
Qed.

(** X2.  For non-negative usage metrics no cost component is negative: the
    egress cost lies between 0.09 and 0.12 per GB, a priced storage scan
    costs at least 9.24, and the total is at least the fixed overhead
    0.10. *)
Theorem costs_lower_bounds
    (self : Estimator) (region : string) (ev eg : Q) (s3 : S3Data) (ec2 : EC2Data)
    (Hev : (0 <= ev)%Q) (Heg : (0 <= eg)%Q) (Hs3 : (0 <= s3_total_size_gb s3)%Q) :
  let c := costs_of self region ev eg s3 ec2 in
  (0 <= eventbridge_cost c)%Q
  /\ (eg * 0.09 <= data_egress_cost c <= eg * 0.12)%Q
  /\ (0 <= dspm_cost c)%Q
  /\ (include_dspm self = true -> (0 < s3_count s3)%Z -> 9.24 <= dspm_cost c)%Q
  /\ (0 <= snapshot_cost c)%Q
  /\ (0.10 <= total_cost c)%Q.
Proof.
  cbv zeta. unfold costs_of.
  cbn [total_cost eventbridge_cost data_egress_cost lambda_cost cloudtrail_cost
       dspm_cost snapshot_cost].
  pose proof (egress_rate_bounds region) as [Hr1 Hr2].
  assert (Heb : (0 <= ev / 1000000 * 1.00)%Q).
  { unfold Qdiv. change (/ 1000000)%Q with (1 # 1000000)%Q. lra. }
  assert (Hde : (eg * 0.09 <= eg * egress_rate region <= eg * 0.12)%Q).
  { split.
    - rewrite !(Qmult_comm eg). apply Qmult_le_compat_r; assumption.
    - rewrite !(Qmult_comm eg). apply Qmult_le_compat_r; assumption. }
  assert (Hds : (0 <= dspm_cost_of self s3)%Q
                /\ (include_dspm self = true -> (0 < s3_count s3)%Z ->
                    9.24 <= dspm_cost_of self s3)%Q).
  { unfold dspm_cost_of. destruct (include_dspm self); cbn [andb].
    - destruct (Z.gtb_spec (s3_count s3) 0); split; intros; try lra; lia.
    - split; [lra|discriminate]. }
  assert (Hsn : (0 <= snapshot_cost_of self ec2)%Q).
  { unfold snapshot_cost_of, snapshot_compute_cost_of, snapshot_storage_cost_of.
    destruct (include_snapshot self); cbn [andb]; [|lra].
    destruct (Z.gtb_spec (ec2_linux ec2) 0) as [Hpos|]; [|lra].
    assert (Hl : (0 <= inject_Z (ec2_linux ec2))%Q) by (unfold Qle; cbn; lia).
    set (l := inject_Z (ec2_linux ec2)) in *.
    unfold Qdiv. change (/ 30)%Q with (1 # 30)%Q. lra. }
  destruct Hds as [Hds1 Hds2]. destruct Hde as [Hde1 Hde2].
  repeat split; try assumption; try lra; try (apply Hds2; assumption).
Qed.

(** The default usage without access in a South American region. *)
Lemma costs_lower_bounds_witness :
  let c := costs_of scanning_estimator "sa-east-1" 1000000 5
                    (mkS3Data 10 500 50) (mkEC2Data 20 14 5 1) in
  (data_egress_cost c <= 5 * 0.12)%Q
  /\ (9.24 <= dspm_cost c)%Q
  /\ (0.10 <= total_cost c)%Q.
Proof.
  destruct (costs_lower_bounds scanning_estimator "sa-east-1" 1000000 5
              (mkS3Data 10 500 50) (mkEC2Data 20 14 5 1)
              ltac:(discriminate) ltac:(discriminate) ltac:(discriminate))
    as (_ & [_ Hde] & _ & Hds & _ & Htotal).
  split; [exact Hde|]. split; [|exact Htotal].
  apply Hds; reflexivity.
Defined.

(** ** Further properties: operating-system classification *)

(** X3.  How one instance is counted.  A platform tag that contains
    "windows" in any letter case counts the instance as Windows without
    any request.  Otherwise exactly one [describe_images] request is made,
    and the instance is a Windows instance exactly when the first returned
    image has "windows" in its description or has the platform "windows"
    (both compared in lower case); in every other case it is a Linux
    instance: when the request raises, when no image is returned, and
    whatever the description says about Linux distributions. *)
Theorem count_instance_classification
    (w : World) (s : Session) (region : string) (c : Counters) (i : Instance)
    (tr : Log) :
  let platform := get_or_empty (Platform i) in
  let image_id := get_or_empty (ImageId i) in
  let as_windows :=
    mkCounters (total_count c + 1) (linux_count c) (windows_count c + 1) in
  let as_linux :=
    mkCounters (total_count c + 1) (linux_count c + 1) (windows_count c) in
  let tr1 := (tr ++ [DescribeImages s region image_id])%list in
  count_instance w s region c i tr
  = if contains "windows" (lower platform) then (Val as_windows, tr)
    else
      match ec2_describe_images w tr s region image_id with
      | Val (image :: _) =>
          if contains "windows" (lower (get_or_empty (ImageDescription image)))
             || String.eqb (lower (get_or_empty (ImagePlatform image))) "windows"
          then (Val as_windows, tr1)
          else (Val as_linux, tr1)
      | Val [] | Raised => (Val as_linux, tr1)
      end.
Proof.
  cbv zeta. unfold count_instance. run_eff.
  destruct (String.eqb_spec (get_or_empty (Platform i)) "") as [Hempty|Hfull].
  - rewrite Hempty. cbn.
    destruct (ec2_describe_images w tr s region (get_or_empty (ImageId i)))
      as [[|image images]|]; try reflexivity.
    unfold classify_by_image.
    destruct (contains "windows" (lower (get_or_empty (ImageDescription image)))
              || String.eqb (lower (get_or_empty (ImagePlatform image))) "windows");
      [reflexivity|].
    destruct (existsb _ _); reflexivity.
  - cbn [negb andb].
    destruct (contains "windows" (lower (get_or_empty (Platform i)))) eqn:Htag;
      [reflexivity|].
    destruct (ec2_describe_images w tr s region (get_or_empty (ImageId i)))
      as [[|image images]|]; try reflexivity.
    + unfold classify_by_image. cbn [contains String.prefix orb].
      destruct (String.eqb_spec (get_or_empty (Platform i)) "windows") as [Hw|_].
      * rewrite Hw in Htag. discriminate Htag.
      * reflexivity.
    + unfold classify_by_image.
      destruct (contains "windows" (lower (get_or_empty (ImageDescription image)))
                || String.eqb (lower (get_or_empty (ImagePlatform image))) "windows");
        [reflexivity|].
      destruct (existsb _ _); reflexivity.
Qed.


(** ** Further properties: the run in any world *)

(** One loop iteration either appends the row of its (account, region)
    pair or raises and leaves the collection as it was. *)
Lemma analyze_region_step
    (w : World) (self : Estimator) (account_data : Account) (region : string)
    (st : St) :
  (exists tr' row,
      analyze_region w self account_data region st
      = (Val tt, mkSt tr' (results st ++ [row])%list)
      /\ row_key row = (acc_id account_data, region))
  \/ (exists tr', analyze_region w self account_data region st
                  = (Raised, mkSt tr' (results st))).
Proof.
  unfold analyze_region, bind, lift, append_result.
  destruct (gather_metrics w self (acc_id account_data) region (trace st))
    as [[[[[ev eg] s3] ec2]|] tr1].
  - left. cbn [trace results]. do 2 eexists. split; reflexivity.
  - right. eexists. reflexivity.
Qed.

Lemma region_loop_step
    (w : World) (self : Estimator) (account_data : Account)
    (account_regions : list string) :
  forall st, exists out tr' rows done rest,
    for_each account_regions tt
             (fun _ region => analyze_region w self account_data region) st
    = (out, mkSt tr' (results st ++ rows)%list)
    /\ account_regions = (done ++ rest)%list
    /\ map row_key rows = map (pair (acc_id account_data)) done.
Proof.
  induction account_regions as [|region regions IH]; intros st; cbn [for_each].
  - exists (Val tt), (trace st), [], [], []. rewrite app_nil_r. destruct st.
    repeat split.
  - unfold bind.
    destruct (analyze_region_step w self account_data region st)
      as [(tr1 & row & -> & Hkey)|(tr1 & ->)].
    + destruct (IH (mkSt tr1 (results st ++ [row])%list))
        as (out & tr2 & rows & done & rest & -> & -> & Hkeys).
      exists out, tr2, (row :: rows), (region :: done), rest.
      cbn [results map]. rewrite <- app_assoc, Hkey, Hkeys. repeat split.
    + exists Raised, tr1, [], [], (region :: regions).
      rewrite app_nil_r. repeat split.
Qed.

Lemma calculate_costs_step
    (w : World) (self : Estimator) (account_data : Account) (st : St) :
  exists out tr' rows done rest,
    calculate_costs w self account_data st = (out, mkSt tr' (results st ++ rows)%list)
    /\ scope_at w self (acc_id account_data) (trace st) = (done ++ rest)%list
    /\ map row_key rows = map (pair (acc_id account_data)) done.
Proof.
  unfold calculate_costs, scope_at, bind, lift.
  destruct (account_regions_of w self (acc_id account_data) (trace st))
    as [[account_regions|] tr1].
  - destruct (region_loop_step w self account_data account_regions
                (mkSt tr1 (results st)))
      as (out & tr2 & rows & done & rest & Hloop & Hsplit & Hkeys).
    exists out, tr2, rows, done, rest. repeat split; assumption.
  - exists Raised, tr1, [], [], []. rewrite app_nil_r. repeat split.
Qed.

Lemma run_tasks_step (w : World) (self : Estimator) (todo : list Account) :
  forall st, exists tr' rows done,
    run_tasks w self todo st = (Val tt, mkSt tr' (results st ++ rows)%list)
    /\ map row_key rows = keys_of done
    /\ processed done (run_scopes w self todo st).
Proof.
  induction todo as [|account_data rest IH]; intros st; cbn [run_tasks run_scopes].
  - exists (trace st), [], []. rewrite app_nil_r. destruct st.
    repeat split. constructor.
  - unfold bind, try_except at 1.
    destruct (calculate_costs_step w self account_data st)
      as (out & tr1 & rows1 & done1 & rest1 & Hrun & Hscope & Hkeys1).
    assert (Hnext : snd (try_except (calculate_costs w self account_data) (ret tt) st)
                    = mkSt tr1 (results st ++ rows1)%list).
    { unfold try_except, ret. rewrite Hrun. destruct out; reflexivity. }
    rewrite Hnext, Hrun.
    destruct (IH (mkSt tr1 (results st ++ rows1)%list))
      as (tr2 & rows2 & done2 & Hrest & Hkeys2 & Hdone2).
    exists tr2, (rows1 ++ rows2)%list, ((account_data, done1) :: done2).
    cbn [results] in Hrest. rewrite <- app_assoc in Hrest.
    split; [|split].
    + destruct out; unfold ret; exact Hrest.
    + unfold keys_of in *. cbn [flat_map fst snd].
      rewrite map_app, Hkeys1, Hkeys2. reflexivity.
    + constructor; [|exact Hdone2]. cbn [fst snd]. split; [reflexivity|].
      exists rest1. exact Hscope.
Qed.

(** X4.  In every world the run comes to its end: an exception in one
    account's task is never passed on.  The rows already in the collection
    stay as they are, and the rows added belong, account by account in the
    order of [self.accounts], to an initial part of the region list that
    the account's task resolved: no row lies outside the scope, and a task
    that dies loses only its own remaining regions. *)
Theorem run_rows_within_scope (w : World) (self : Estimator) (st : St) :
  exists tr' rows done,
    run w self st = (Val (results st ++ rows)%list, mkSt tr' (results st ++ rows)%list)
    /\ map row_key rows = keys_of done
    /\ processed done (run_scopes w self (accounts self) st).
Proof.
  destruct (run_tasks_step w self (accounts self) st)
    as (tr' & rows & done & Hrun & Hkeys & Hdone).
  exists tr', rows, done. split; [|split; assumption].
  unfold run, bind. rewrite Hrun. reflexivity.
Qed.


(** ** Further properties: region scope *)

(** Probing sends one [describe_vpcs] request per catalog region, in
    catalog order, whatever the answers are. *)
Lemma probe_regions_log (w : World) (s : Session) (catalog : list string) :
  forall enabled_regions tr,
    snd (probe_regions w s catalog enabled_regions tr)
    = (tr ++ map (DescribeVpcs s) catalog)%list.
Proof.
  induction catalog as [|region rest IH]; intros enabled_regions tr; cbn [probe_regions].
  - cbn. rewrite app_nil_r. reflexivity.
  - run_eff. destruct (ec2_describe_vpcs w tr s region);
      rewrite IH, <- app_assoc; reflexivity.
Qed.

(** X5.  When the account can be entered but [describe_regions] raises, and
    the answer of a probe depends only on the region, the resolver sends
    one probe per catalog region and returns the catalog regions whose
    probe answered, in catalog order; only when none answered does it
    return [self.regions]. *)
Theorem enabled_regions_by_probing
    (w : World) (self : Estimator) (account_id : string) (tr tr1 : Log) (s : Session)
    (reachable : string -> bool)
    (Hs : _get_account_session w account_id tr = (Val (Some s), tr1))
    (Hdescribe : ec2_describe_regions w tr1 s = Raised)
    (Hstatic : forall log region,
        ec2_describe_vpcs w log s region = if reachable region then Val tt else Raised) :
  get_enabled_regions_for_account w self account_id tr
  = (Val (match filter reachable (all_available_regions self) with
          | [] => regions self
          | enabled => enabled
          end),
     (tr1 ++ DescribeRegions s :: map (DescribeVpcs s) (all_available_regions self))%list).
Proof.
  unfold get_enabled_regions_for_account. run_eff. rewrite Hs, Hdescribe.
  pose proof (probe_regions_static w s reachable Hstatic (all_available_regions self)
                [] (tr1 ++ [DescribeRegions s])%list) as Hval.
  pose proof (probe_regions_log w s (all_available_regions self)
                [] (tr1 ++ [DescribeRegions s])%list) as Hlog.
  destruct (probe_regions w s (all_available_regions self) []
              (tr1 ++ [DescribeRegions s])%list) as [out tr2].
  cbn [fst snd] in Hval, Hlog. subst out tr2. cbn [app].
  rewrite <- app_assoc. cbn [app].
  destruct (filter reachable (all_available_regions self)); reflexivity.
Qed.

(** In [probing_world] the seventeen catalog regions are probed and the two
    that answer are the scope. *)
Lemma enabled_regions_by_probing_witness :
  get_enabled_regions_for_account probing_world own_account_estimator
                                  management_account []
  = (Val ["eu-west-1"; "eu-central-1"],
     (GetCallerIdentity :: DescribeRegions BaseSession
        :: map (DescribeVpcs BaseSession) fallback_catalog)).
Proof.
  exact (enabled_regions_by_probing probing_world own_account_estimator
           management_account [] [GetCallerIdentity] BaseSession
           (fun region => String.eqb region "eu-west-1"
                          || String.eqb region "eu-central-1")
           eq_refl eq_refl (fun _ _ => eq_refl)).
Defined.

(** X6.  When [describe_regions] answers and every region it lists is
    marked [not-opted-in], the resolver returns the empty list: it does not
    fall back to [self.regions] as it does after probing, and in
    all-regions mode the account's task ends without a row. *)
Theorem opted_out_account_has_no_row
    (w : World) (self : Estimator) (account_data : Account) (st : St) (tr1 : Log)
    (s : Session) (response : list RegionInfo)
    (Hall : include_all_regions self = true)
    (Hs : _get_account_session w (acc_id account_data) (trace st) = (Val (Some s), tr1))
    (Hdescribe : ec2_describe_regions w tr1 s = Val response)
    (Hout : forall r, In r response -> OptInStatus r = Some "not-opted-in") :
  get_enabled_regions_for_account w self (acc_id account_data) (trace st)
  = (Val [], (tr1 ++ [DescribeRegions s])%list)
  /\ calculate_costs w self account_data st
     = (Val tt, mkSt (tr1 ++ [DescribeRegions s])%list (results st)).
Proof.
  assert (Hnone : filter opted_in response = []).
  { clear Hdescribe. induction response as [|r rest IH]; [reflexivity|].
    cbn [filter]. unfold opted_in at 1. rewrite (Hout r (or_introl eq_refl)).
    cbn. apply IH. intros r' Hin. apply Hout. right. exact Hin. }
  assert (Hscope : get_enabled_regions_for_account w self (acc_id account_data) (trace st)
                   = (Val [], (tr1 ++ [DescribeRegions s])%list)).
  { unfold get_enabled_regions_for_account. run_eff.
    rewrite Hs, Hdescribe, Hnone. reflexivity. }
  split; [exact Hscope|].
  unfold calculate_costs, account_regions_of, bind, lift.
  rewrite Hall, Hscope. reflexivity.
Qed.

(** In [opted_out_world] the management account itself yields no row. *)
Lemma opted_out_account_has_no_row_witness :
  fst (run opted_out_world own_account_estimator (mkSt [] [])) = Val [].
Proof.
  pose proof (opted_out_account_has_no_row opted_out_world own_account_estimator
                (mkAccount management_account "management") (mkSt [] [])
                [GetCallerIdentity] BaseSession
                [mkRegionInfo "me-south-1" (Some "not-opted-in");
                 mkRegionInfo "af-south-1" (Some "not-opted-in")]
                eq_refl eq_refl eq_refl) as Hdrop.
  assert (Hout : forall r,
             In r [mkRegionInfo "me-south-1" (Some "not-opted-in");
                   mkRegionInfo "af-south-1" (Some "not-opted-in")] ->
             OptInStatus r = Some "not-opted-in").
  { intros r [<-|[<-|[]]]; reflexivity. }
  destruct (Hdrop Hout) as [_ Htask].
  unfold run, bind. cbn [run_tasks accounts own_account_estimator constructed].
  unfold bind, try_except. rewrite Htask. reflexivity.
Defined.


(** ** Further properties: storage inventory *)

(** A value with at most two decimals is left alone by [round(x, 2)]. *)
Lemma py_round2_cents (x : Q) (k : Z) :
  (x * 100 == inject_Z k)%Q -> (py_round2 x == x)%Q.
Proof.
  intros Hk. unfold py_round2. rewrite Qred_correct.
  assert (Hr : round_half_even (x * 100) = k).
  { unfold round_half_even.
    rewrite (Qfloor_comp _ _ Hk), Qfloor_Z.
    destruct (Qcompare (x * 100 - inject_Z k) (1 # 2)) eqn:Hcmp; [exfalso|reflexivity|exfalso].
    - apply Qeq_alt in Hcmp. lra.
    - apply Qgt_alt in Hcmp. lra. }
  rewrite Hr. unfold Qdiv. change (/ 100)%Q with (1 # 100)%Q. lra.
Qed.

Lemma regional_buckets_returns
    (w : World) (s : Session) (region : string) (buckets : list string) :
  forall acc tr, exists regional tr',
    for_each buckets acc
      (fun regional_buckets bucket =>
         keep <- bucket_in_region w s region bucket ;;
         ret (if keep then (regional_buckets ++ [bucket])%list else regional_buckets))
      tr
    = (Val regional, tr')
    /\ (length regional <= length acc + length buckets)%nat.
Proof.
  set (body := fun (regional_buckets : list string) (bucket : string) => _).
  induction buckets as [|bucket rest IH]; intros acc tr; cbn [for_each].
  - exists acc, tr. split; [reflexivity|]. cbn. lia.
  - unfold bind at 1, body at 1.
    unfold bucket_in_region, bind, try_except, remote, ret.
    destruct (s3_get_bucket_location w tr s region bucket) as [location|].
    + destruct (String.eqb _ region).
      * destruct (IH (acc ++ [bucket])%list (tr ++ [GetBucketLocation s region bucket])%list)
          as (regional & tr' & -> & Hlen).
        exists regional, tr'. split; [reflexivity|].
        rewrite length_app in Hlen. cbn in Hlen. cbn. lia.
      * destruct (IH acc (tr ++ [GetBucketLocation s region bucket])%list)
          as (regional & tr' & -> & Hlen).
        exists regional, tr'. split; [reflexivity|]. cbn. lia.
    + destruct (IH acc (tr ++ [GetBucketLocation s region bucket])%list)
        as (regional & tr' & -> & Hlen).
      exists regional, tr'. split; [reflexivity|]. cbn. lia.
Qed.

Lemma regional_buckets_static
    (w : World) (s : Session) (region : string)
    (located : string -> outcome (option string))
    (Hstatic : forall log bucket,
        s3_get_bucket_location w log s region bucket = located bucket)
    (buckets : list string) :
  forall acc tr,
    for_each buckets acc
      (fun regional_buckets bucket =>
         keep <- bucket_in_region w s region bucket ;;
         ret (if keep then (regional_buckets ++ [bucket])%list else regional_buckets))
      tr
    = (Val (acc ++ filter (located_in region located) buckets)%list,
       (tr ++ map (GetBucketLocation s region) buckets)%list).
Proof.
  set (body := fun (regional_buckets : list string) (bucket : string) => _).
  induction buckets as [|bucket rest IH]; intros acc tr; cbn [for_each filter map].
  - unfold ret. rewrite !app_nil_r. reflexivity.
  - unfold bind at 1, body at 1.
    unfold bucket_in_region, bind, try_except, remote, ret, located_in at 1.
    rewrite Hstatic.
    destruct (located bucket) as [[location|]|].
    + destruct (String.eqb location region); rewrite IH, <- !app_assoc; reflexivity.
    + destruct (String.eqb "us-east-1" region); rewrite IH, <- !app_assoc; reflexivity.
    + rewrite IH, <- !app_assoc. reflexivity.
Qed.

(** The sizing loop never raises and sends one size query per bucket. *)
Lemma sizing_returns
    (w : World) (s : Session) (region : string) (names : list string) :
  forall acc tr, exists acc',
    for_each names acc (add_bucket_size w s region) tr
    = (Val acc',
       (tr ++ map (fun name => GetMetricStatistics s region (bucket_size_query name))
                  names)%list).
Proof.
  induction names as [|name rest IH]; intros [total sized] tr; cbn [for_each map].
  - exists (total, sized). unfold ret. rewrite app_nil_r. reflexivity.
  - unfold bind at 1, add_bucket_size at 1, get_metric_statistics.
    unfold bind, try_except, remote, ret.
    destruct (cloudwatch_get_metric_statistics w tr s region (bucket_size_query name))
      as [[|first others]|];
      match goal with
      | |- context [for_each rest ?a _ ?t] =>
          destruct (IH a t) as (acc' & ->); exists acc';
          rewrite <- app_assoc; reflexivity
      end.
Qed.

Lemma sizing_without_data
    (w : World) (s : Session) (region : string)
    (Hnone : forall log name,
        no_datapoint (cloudwatch_get_metric_statistics w log s region
                        (bucket_size_query name)))
    (names : list string) :
  forall acc tr,
    fst (for_each names acc (add_bucket_size w s region) tr) = Val acc.
Proof.
  induction names as [|name rest IH]; intros [total sized] tr; cbn [for_each].
  - reflexivity.
  - unfold bind at 1, add_bucket_size at 1, get_metric_statistics.
    unfold bind, try_except, remote, ret.
    pose proof (Hnone tr name) as Hn.
    destruct (cloudwatch_get_metric_statistics w tr s region (bucket_size_query name))
      as [[|first others]|]; [apply IH|destruct Hn|apply IH].
Qed.

(** The inventory part of the estimator raises only when [list_buckets]
    raises. *)
Lemma s3_inventory_outcome (w : World) (s : Session) (region : string) (tr1 : Log) :
  match s3_list_buckets w tr1 s region with
  | Raised => s3_inventory w s region tr1 = (Raised, (tr1 ++ [ListBuckets s region])%list)
  | Val buckets =>
      exists count total avg tr',
        s3_inventory w s region tr1 = (Val (count, total, avg), tr')
        /\ (0 <= count <= Z.of_nat (length buckets))%Z
  end.
Proof.
  unfold s3_inventory, bind, remote.
  destruct (s3_list_buckets w tr1 s region) as [buckets|]; [|reflexivity].
  unfold regional_buckets_of.
  destruct (regional_buckets_returns w s region buckets []
              (tr1 ++ [ListBuckets s region])%list) as (regional & tr2 & -> & Hlen).
  destruct (sizing_returns w s region regional (0%Q, 0%Z) tr2) as (sized & ->).
  destruct (extrapolate_sizes (Z.of_nat (length regional)) (fst sized) (snd sized))
    as [total avg].
  unfold ret. do 4 eexists. split; [reflexivity|]. cbn in Hlen. lia.
Qed.

(** X7.  With the storage scan on and a session, the storage estimator
    falls back to the default inventory (10 buckets, 500 GB) exactly when
    [list_buckets] raises.  Once the buckets are listed nothing makes it
    fall back: location and size failures are absorbed bucket by bucket,
    the inventory is computed, and its count is at most the number of
    listed buckets. *)
Theorem s3_estimate_after_listing
    (w : World) (self : Estimator) (account_id region : string) (tr tr1 : Log)
    (s : Session)
    (Hdspm : include_dspm self = true)
    (Hs : _get_account_session w account_id tr = (Val (Some s), tr1)) :
  match s3_list_buckets w tr1 s region with
  | Raised =>
      estimate_s3_buckets w self account_id region tr
      = (Val (mkS3Data 10 500 50), (tr1 ++ [ListBuckets s region])%list)
  | Val buckets =>
      exists count total avg tr',
        s3_inventory w s region tr1 = (Val (count, total, avg), tr')
        /\ estimate_s3_buckets w self account_id region tr
           = (Val (mkS3Data count (py_round2 total) (py_round2 avg)), tr')
        /\ (0 <= count <= Z.of_nat (length buckets))%Z
  end.
Proof.
  pose proof (s3_inventory_outcome w s region tr1) as Hinv.
  unfold estimate_s3_buckets. rewrite Hdspm. cbn [negb].
  unfold bind, try_except. rewrite Hs.
  destruct (s3_list_buckets w tr1 s region) as [buckets|].
  - destruct Hinv as (count & total & avg & tr' & Hinv & Hcount).
    exists count, total, avg, tr'. rewrite Hinv. repeat split; try reflexivity; lia.
  - rewrite Hinv. reflexivity.
Qed.

(** In [four_bucket_world] the buckets are listed and two of the four lie
    in [us-east-1]. *)
Lemma s3_estimate_after_listing_witness :
  exists count total avg tr',
    estimate_s3_buckets four_bucket_world storage_estimator management_account
                        "us-east-1" []
    = (Val (mkS3Data count (py_round2 total) (py_round2 avg)), tr')
    /\ (0 <= count <= 4)%Z.
Proof.
  destruct (s3_estimate_after_listing four_bucket_world storage_estimator
              management_account "us-east-1" [] [GetCallerIdentity] BaseSession
              eq_refl eq_refl)
    as (count & total & avg & tr' & _ & Hestimate & Hcount).
  exists count, total, avg, tr'. split; [exact Hestimate|exact Hcount].
Defined.

(** X8.  When the location answer depends only on the bucket, the bucket
    count is the number of listed buckets located in the region, where a
    location of [None] stands for [us-east-1] and a bucket whose location
    cannot be read is left out; the estimator asks for the location of
    every listed bucket and for the size of every bucket it kept.  When no
    kept bucket has a size datapoint, the average is 50 GB and the total 50
    GB per kept bucket. *)
Theorem s3_count_by_location
    (w : World) (self : Estimator) (account_id region : string) (tr tr1 : Log)
    (s : Session) (buckets : list string)
    (located : string -> outcome (option string))
    (Hdspm : include_dspm self = true)
    (Hs : _get_account_session w account_id tr = (Val (Some s), tr1))
    (Hlist : s3_list_buckets w tr1 s region = Val buckets)
    (Hstatic : forall log bucket,
        s3_get_bucket_location w log s region bucket = located bucket) :
  let kept := filter (located_in region located) buckets in
  exists d,
    estimate_s3_buckets w self account_id region tr
    = (Val d,
       (tr1 ++ ListBuckets s region
            :: map (GetBucketLocation s region) buckets
            ++ map (fun name => GetMetricStatistics s region (bucket_size_query name))
                   kept)%list)
    /\ s3_count d = Z.of_nat (length kept)
    /\ ((forall log name,
           no_datapoint (cloudwatch_get_metric_statistics w log s region
                           (bucket_size_query name))) ->
        (s3_total_size_gb d == 50 * inject_Z (Z.of_nat (length kept)))%Q
        /\ (s3_avg_size_gb d == 50)%Q).
Proof.
  cbv zeta.
  set (kept := filter (located_in region located) buckets).
  set (tr2 := ((tr1 ++ [ListBuckets s region])
               ++ map (GetBucketLocation s region) buckets)%list).
  destruct (sizing_returns w s region kept (0%Q, 0%Z) tr2) as (sized & Hsized).
  assert (Hinv : s3_inventory w s region tr1
                 = (let '(total, avg) :=
                      extrapolate_sizes (Z.of_nat (length kept)) (fst sized) (snd sized) in
                    Val (Z.of_nat (length kept), total, avg),
                    (tr2 ++ map (fun name => GetMetricStatistics s region
                                               (bucket_size_query name)) kept)%list)).
  { unfold s3_inventory, bind, remote. rewrite Hlist.
    unfold regional_buckets_of.
    rewrite (regional_buckets_static w s region located Hstatic buckets []
               (tr1 ++ [ListBuckets s region])%list).
    cbn [app]. fold kept. fold tr2. rewrite Hsized.
    destruct (extrapolate_sizes _ _ _). reflexivity. }
  unfold estimate_s3_buckets. rewrite Hdspm. cbn [negb].
  unfold bind, try_except. rewrite Hs, Hinv.
  destruct (extrapolate_sizes (Z.of_nat (length kept)) (fst sized) (snd sized))
    as [total avg] eqn:Hextra.
  eexists. split; [|split].
  - unfold ret. f_equal. subst tr2. rewrite <- !app_assoc. reflexivity.
  - reflexivity.
  - intros Hnone.
    pose proof (sizing_without_data w s region Hnone kept (0%Q, 0%Z) tr2) as Hnodata.
    rewrite Hsized in Hnodata. cbn [fst] in Hnodata. injection Hnodata as ->.
    cbn [fst snd] in Hextra. unfold extrapolate_sizes in Hextra. cbn in Hextra.
    injection Hextra as <- <-. cbn [s3_total_size_gb s3_avg_size_gb].
    split.
    + apply (py_round2_cents _ (5000 * Z.of_nat (length kept))).
      rewrite inject_Z_mult. change (inject_Z 5000) with 5000%Q. lra.
    + reflexivity.
Qed.

(** In [four_bucket_world] the region [us-east-1] keeps [logs] and
    [backup]; without size data they count for 100 GB. *)
Lemma s3_count_by_location_witness :
  exists d tr',
    estimate_s3_buckets four_bucket_world storage_estimator management_account
                        "us-east-1" [] = (Val d, tr')
    /\ s3_count d = 2%Z
    /\ (s3_total_size_gb d == 100)%Q
    /\ (s3_avg_size_gb d == 50)%Q.
Proof.
  destruct (s3_count_by_location four_bucket_world storage_estimator
              management_account "us-east-1" [] [GetCallerIdentity] BaseSession
              ["logs"; "assets"; "backup"; "secret"]
              (fun bucket =>
                 if String.eqb bucket "logs" then Val None
                 else if String.eqb bucket "assets" then Val (Some "eu-west-1")
                 else if String.eqb bucket "backup" then Val (Some "us-east-1")
                 else Raised)
              eq_refl eq_refl eq_refl (fun _ _ => eq_refl))
    as (d & Hrun & Hcount & Hsizes).
  destruct (Hsizes (fun _ _ => I)) as [Htotal Havg].
  exists d. eexists. split; [exact Hrun|]. split; [exact Hcount|].
  split; [exact Htotal|exact Havg].
Defined.


(** ** Further properties: signs and floors of the estimates *)

Lemma fold_left_Qplus_nonneg (xs : list Q) :
  Forall (fun d => (0 <= d)%Q) xs ->
  forall acc, (0 <= acc)%Q -> (0 <= fold_left Qplus xs acc)%Q.
Proof.
  induction 1 as [|x xs Hx Hxs IH]; intros acc Hacc; cbn [fold_left];
    [assumption|].
  apply IH. lra.
Qed.

Lemma daily_average_nonneg (datapoints : list Q) :
  Forall (fun d => (0 <= d)%Q) datapoints -> (0 <= daily_average datapoints)%Q.
Proof.
  intros Hnn. unfold daily_average, py_sum.
  pose proof (fold_left_Qplus_nonneg datapoints Hnn 0 ltac:(lra)) as Hsum.
  apply Qle_shift_div_l.
  - destruct (Z.gtb_spec (Z.of_nat (length datapoints)) 0);
      unfold Qlt; cbn; lia.
  - lra.
Qed.

Lemma gib_scaling_nonneg (x : Q) :
  (0 <= x)%Q -> (0 <= x / (1024 * 1024 * 1024))%Q.
Proof.
  intros Hx. unfold Qdiv.
  change (/ (1024 * 1024 * 1024))%Q with (1 # 1073741824)%Q. lra.
Qed.

Lemma events_from_resources_floor
    (w : World) (s : Session) (region : string) (tr tr' : Log) (v : Q) :
  events_from_resources w s region tr = (Val (Some v), tr') -> (100000 <= v)%Q.
Proof.
  unfold events_from_resources. run_eff.
  destruct (ec2_describe_instances w tr s region); [|discriminate].
  destruct (iam_list_users w _ s); [|discriminate].
  destruct (iam_list_roles w _ s); [|discriminate].
  intros H. injection H as <- _. unfold Qle. cbn. lia.
Qed.

Lemma events_nonneg
    (w : World) (Hnn : metrics_nonnegative w) (account_id region : string)
    (tr tr' : Log) (v : Q) :
  estimate_cloudtrail_events w account_id region tr = (Val v, tr') -> (0 <= v)%Q.
Proof.
  unfold estimate_cloudtrail_events, bind at 1.
  destruct (_get_account_session w account_id tr) as [[[s|]|] tr1];
    [|unfold ret; intros H; injection H as <- _; lra|discriminate].
  unfold try_except, bind at 1, get_metric_statistics at 1, remote at 1.
  destruct (cloudwatch_get_metric_statistics w tr1 s region (trail_events_query region))
    as [[|d ds]|] eqn:Htrail;
    [| unfold ret; intros H; injection H as <- _;
       pose proof (daily_average_nonneg _ (Hnn _ _ _ _ _ Htrail)); lra
     | unfold ret; intros H; injection H as <- _; lra].
  unfold bind at 1, events_from_call_count, try_except, bind at 1,
    get_metric_statistics at 1, remote at 1.
  destruct (cloudwatch_get_metric_statistics w _ s region call_count_query)
    as [[|d ds]|] eqn:Hcalls;
    [| unfold ret; intros H; injection H as <- _;
       pose proof (daily_average_nonneg _ (Hnn _ _ _ _ _ Hcalls)); lra
     |];
    unfold ret at 1; unfold bind at 1;
    match goal with
    | |- context [events_from_resources w s region ?t] =>
        destruct (events_from_resources w s region t) as [[[estimate|]|] tr3] eqn:Hres
    end;
    unfold ret; intros H; try discriminate H; injection H as <- _;
    try (apply events_from_resources_floor in Hres); lra.
Qed.

(** X9.  When CloudWatch returns only non-negative datapoints, the event
    estimate and the egress estimate are never negative.  When, with a
    session, neither the trail-event query nor the API-call-count query
    has a datapoint, the event estimate is at least 100,000. *)
Theorem estimates_nonnegative
    (w : World) (Hnn : metrics_nonnegative w) (account_id region : string) (tr : Log) :
  (forall v tr', estimate_cloudtrail_events w account_id region tr = (Val v, tr') ->
                 (0 <= v)%Q)
  /\ (forall v tr', estimate_data_transfer w account_id region tr = (Val v, tr') ->
                    (0 <= v)%Q)
  /\ (forall s tr1 v tr',
        _get_account_session w account_id tr = (Val (Some s), tr1) ->
        cloudwatch_get_metric_statistics w tr1 s region (trail_events_query region)
        = Val [] ->
        no_datapoint
          (cloudwatch_get_metric_statistics w
             (tr1 ++ [GetMetricStatistics s region (trail_events_query region)])%list
             s region call_count_query) ->
        estimate_cloudtrail_events w account_id region tr = (Val v, tr') ->
        (100000 <= v)%Q).
Proof.
  split; [|split].
  - intros v tr'. apply events_nonneg. exact Hnn.
  - intros v tr'. unfold estimate_data_transfer, bind at 1.
    destruct (_get_account_session w account_id tr) as [[[s|]|] tr1];
      [|unfold ret; intros H; injection H as <- _; lra|discriminate].
    unfold try_except, bind at 1, get_metric_statistics at 1, remote at 1.
    destruct (cloudwatch_get_metric_statistics w tr1 s region
                (bytes_delivered_query region)) as [[|d ds]|] eqn:Hbytes.
    + unfold bind at 1.
      destruct (estimate_cloudtrail_events w account_id region _)
        as [[ev|] tr2] eqn:Hev.
      * pose proof (events_nonneg w Hnn _ _ _ _ _ Hev) as Hpos.
        unfold ret. intros H. injection H as <- _.
        apply gib_scaling_nonneg. lra.
      * unfold ret. intros H. injection H as <- _. lra.
    + unfold ret. intros H. injection H as <- _.
      pose proof (daily_average_nonneg _ (Hnn _ _ _ _ _ Hbytes)).
      apply gib_scaling_nonneg. lra.
    + unfold ret. intros H. injection H as <- _. lra.
  - intros s tr1 v tr' Hs Htrail Hcalls.
    unfold estimate_cloudtrail_events, bind at 1. rewrite Hs.
    unfold try_except, bind at 1, get_metric_statistics at 1, remote at 1.
    rewrite Htrail.
    unfold bind at 1, events_from_call_count, try_except, bind at 1,
      get_metric_statistics at 1, remote at 1.
    destruct (cloudwatch_get_metric_statistics w _ s region call_count_query)
      as [[|d ds]|]; [|destruct Hcalls|];
      unfold ret at 1; unfold bind at 1;
      match goal with
      | |- context [events_from_resources w s region ?t] =>
          destruct (events_from_resources w s region t) as [[[estimate|]|] tr3] eqn:Hres
      end;
      unfold ret; intros H; try discriminate H; injection H as <- _;
      try (apply events_from_resources_floor in Hres); lra.
Qed.

(** In [resources_world] no metric has a datapoint and the estimate rests
    on the 45 resources: 225,000 events. *)
Lemma estimates_nonnegative_witness :
  (100000 <= 225000)%Q
  /\ estimate_cloudtrail_events resources_world management_account "us-east-1" []
     = (Val 225000%Q,
        [GetCallerIdentity;
         GetMetricStatistics BaseSession "us-east-1" (trail_events_query "us-east-1");
         GetMetricStatistics BaseSession "us-east-1" call_count_query;
         DescribeInstances BaseSession "us-east-1";
         ListUsers BaseSession;
         ListRoles BaseSession]).
Proof.
  assert (Hnn : metrics_nonnegative resources_world).
  { intros log s region q datapoints. unfold resources_world. cbn.
    destruct (String.eqb (MetricName q) "CallCount");
      [|destruct (String.eqb (MetricName q) "Events")];
      intros H; try discriminate H; injection H as <-; constructor. }
  split; [|reflexivity].
  exact (proj2 (proj2 (estimates_nonnegative resources_world Hnn management_account
                         "us-east-1" []))
           BaseSession [GetCallerIdentity] 225000%Q _ eq_refl eq_refl I eq_refl).
Defined.


(** ** Further properties: the constructor *)

(** X10.  With a session, the constructor keeps exactly the accounts whose
    status is ACTIVE, in listing order across all pages.  When the listing
    raises, also after it has delivered pages, what was listed is dropped
    and the only account is the caller's own, named by its first alias, by
    its id when it has no alias, and by the empty string when the answer
    has no alias list.  The region catalog is the answer of
    [describe_regions], or the hardcoded list when that request raises. *)
Theorem init_accounts
    (m : Management) (regions_arg : option (list string))
    (include_all dspm snapshot : bool) (tr : BaseLog)
    (Hsession : creds_get_session m tr = Val true) :
  let tr1 := (tr ++ [GetSession])%list in
  let tr2 := (tr1 ++ [BaseDescribeRegions])%list in
  let tr3 := (tr2 ++ [ListAccounts])%list in
  let tr4 := (tr3 ++ [BaseGetCallerIdentity])%list in
  let tr5 := (tr4 ++ [ListAccountAliases])%list in
  let catalog := match base_describe_regions m tr1 with
                 | Val names => names
                 | Raised => fallback_catalog
                 end in
  let built active_accounts :=
    Val (Some (constructed regions_arg include_all dspm snapshot catalog
                           active_accounts)) in
  let paged := org_list_accounts m tr2 in
  if accounts_then_raise paged then
    match base_get_caller_identity m tr3 with
    | Raised => __init__ m regions_arg include_all dspm snapshot tr = (Raised, tr4)
    | Val account_id =>
        match iam_list_account_aliases m tr4 with
        | Raised => __init__ m regions_arg include_all dspm snapshot tr = (Raised, tr5)
        | Val (Some (alias :: _)) =>
            __init__ m regions_arg include_all dspm snapshot tr
            = (built [mkAccount account_id alias], tr5)
        | Val (Some []) =>
            __init__ m regions_arg include_all dspm snapshot tr
            = (built [mkAccount account_id account_id], tr5)
        | Val None =>
            __init__ m regions_arg include_all dspm snapshot tr
            = (built [mkAccount account_id ""], tr5)
        end
    end
  else
    __init__ m regions_arg include_all dspm snapshot tr
    = (built (map (fun account => mkAccount (Id account) (Name account))
                  (filter (fun account => String.eqb (Status account) "ACTIVE")
                          (concat (account_pages paged)))),
       tr3).
Proof.
  cbv zeta. unfold __init__, list_active_accounts, current_account_only.
  unfold bind, try_except, request, ret, raise. rewrite Hsession.
  destruct (base_describe_regions m (tr ++ [GetSession])%list) as [names|];
    (destruct (accounts_then_raise (org_list_accounts m _)); [|reflexivity]);
    (destruct (base_get_caller_identity m _) as [account_id|]; [|reflexivity]);
    (destruct (iam_list_account_aliases m _) as [[[|alias aliases]|]|]; reflexivity).
Qed.

(** In [organization] the suspended account is left out; in
    [broken_listing] the two listed accounts are dropped for the caller's
    own account, which has no alias. *)
Lemma init_accounts_witness :
  (exists self tr',
      __init__ organization None false false false [] = (Val (Some self), tr')
      /\ accounts self = [mkAccount "111111111111" "management";
                          mkAccount "222222222222" "member"]
      /\ all_available_regions self = ["us-east-1"; "eu-west-1"])
  /\ (exists self tr',
         __init__ broken_listing None false false false [] = (Val (Some self), tr')
         /\ accounts self = [mkAccount "111111111111" "111111111111"]).
Proof.
  split.
  - do 2 eexists. split.
    + exact (init_accounts organization None false false false [] eq_refl).
    + split; reflexivity.
  - do 2 eexists. split.
    + exact (init_accounts broken_listing None false false false [] eq_refl).
    + reflexivity.
Defined.

(** X11.  The constructor ends in one of three ways.  It exits, with
    [get_session] as its only request, exactly when that call does not
    return a usable session.  It raises exactly when, with a session, the
    account listing raised and the caller-identity or the alias request of
    the fallback raised as well: these two requests have no handler.  In
    every other case it builds the estimator. *)
Theorem init_outcome
    (m : Management) (regions_arg : option (list string))
    (include_all dspm snapshot : bool) (tr : BaseLog) :
  let tr3 := (tr ++ [GetSession; BaseDescribeRegions; ListAccounts])%list in
  let result := __init__ m regions_arg include_all dspm snapshot tr in
  (creds_get_session m tr <> Val true <-> result = (Val None, (tr ++ [GetSession])%list))
  /\ (fst result = Raised
      <-> creds_get_session m tr = Val true
          /\ accounts_then_raise
               (org_list_accounts m (tr ++ [GetSession; BaseDescribeRegions])%list)
             = true
          /\ (base_get_caller_identity m tr3 = Raised
              \/ iam_list_account_aliases m (tr3 ++ [BaseGetCallerIdentity])%list
                 = Raised)).
Proof.
  cbv zeta. unfold __init__, list_active_accounts, current_account_only.
  unfold bind, try_except, request, ret, raise.
  replace (tr ++ [GetSession; BaseDescribeRegions])%list
    with ((tr ++ [GetSession]) ++ [BaseDescribeRegions])%list
    by (rewrite <- app_assoc; reflexivity).
  replace (tr ++ [GetSession; BaseDescribeRegions; ListAccounts])%list
    with (((tr ++ [GetSession]) ++ [BaseDescribeRegions]) ++ [ListAccounts])%list
    by (rewrite <- !app_assoc; reflexivity).
  destruct (creds_get_session m tr) as [[|]|].
  2,3: split; split; try reflexivity; try discriminate;
    try (intros; congruence); intros (H & _); discriminate H.
  destruct (base_describe_regions m (tr ++ [GetSession])%list) as [names|];
    (destruct (accounts_then_raise (org_list_accounts m _));
     [ destruct (base_get_caller_identity m _) as [account_id|];
       [ destruct (iam_list_account_aliases m _) as [[[|alias aliases]|]|] | ] | ]);
    cbn [fst]; (split; split);
    try discriminate; try (intros H; exfalso; apply H; reflexivity);
    try (intros (_ & H & _); discriminate H);
    try (intros (_ & _ & [H|H]); discriminate H);
    try (intros _; repeat split; auto).
Qed.

(** ** Further properties: the business-unit column *)

Lemma dict_get_set_same (k v : string) (d : list (string * string)) :
  dict_get k (dict_set k v d) = Some v.
Proof.
  induction d as [|[k' v'] d IH]; cbn [dict_set dict_get].
  - rewrite String.eqb_refl. reflexivity.
  - destruct (String.eqb k' k) eqn:Hk; cbn [dict_get]; rewrite Hk; [reflexivity|exact IH].
Qed.

Lemma dict_get_set_other (k k' v : string) (d : list (string * string)) :
  k <> k' -> dict_get k (dict_set k' v d) = dict_get k d.
Proof.
  intros Hneq. induction d as [|[k0 v0] d IH]; cbn [dict_set dict_get].
  - destruct (String.eqb_spec k' k); [congruence|reflexivity].
  - destruct (String.eqb_spec k0 k') as [->|Hk0]; cbn [dict_get].
    + destruct (String.eqb_spec k' k); [congruence|reflexivity].
    + destruct (String.eqb k0 k); [reflexivity|exact IH].
Qed.

Lemma unique_after_complete (l : list string) :
  forall seen x, In x l -> In x seen \/ In x (unique_after seen l).
Proof.
  induction l as [|y l IH]; intros seen x Hin; [destruct Hin|].
  cbn [unique_after]. destruct (existsb (String.eqb y) seen) eqn:Hseen.
  - destruct Hin as [<-|Hin]; [|apply IH; exact Hin].
    left. apply existsb_exists in Hseen as (z & Hz & Heq).
    apply String.eqb_eq in Heq. subst z. exact Hz.
  - destruct Hin as [<-|Hin]; [right; left; reflexivity|].
    destruct (IH (y :: seen) x Hin) as [[<-|Hs]|Hu].
    + right. left. reflexivity.
    + left. exact Hs.
    + right. right. exact Hu.
Qed.

Lemma unique_after_fresh (l : list string) :
  forall seen,
    NoDup (unique_after seen l)
    /\ forall x, In x (unique_after seen l) -> ~ In x seen.
Proof.
  induction l as [|y l IH]; intros seen; cbn [unique_after].
  - split; [constructor|intros x []].
  - destruct (existsb (String.eqb y) seen) eqn:Hseen; [apply IH|].
    destruct (IH (y :: seen)) as [Hnodup Hfresh]. split.
    + constructor; [|exact Hnodup].
      intros Hin. apply (Hfresh y Hin). left. reflexivity.
    + intros x [<-|Hin] Hs.
      * assert (Htrue : existsb (String.eqb y) seen = true).
        { apply existsb_exists. exists y. split; [exact Hs|apply String.eqb_refl]. }
        congruence.
      * apply (Hfresh x Hin). right. exact Hs.
Qed.

(** With log-independent tag answers, the loop fills the dictionary with
    the unit of every id it visits and sends one request per id. *)
Lemma account_tags_static
    (m : Management) (answer : string -> outcome (list Tag))
    (Hstatic : forall log account_id,
        org_list_tags_for_resource m log account_id = answer account_id)
    (account_ids : list string) :
  forall d tr, exists d',
    for_each account_ids d
      (fun account_tags account_id =>
         bu <- try_except
                 (tags <- request (ListTagsForResource account_id)
                                  (fun tr => org_list_tags_for_resource m tr account_id) ;;
                  ret (business_unit_of tags))
                 (ret "Untagged") ;;
         ret (dict_set account_id bu account_tags))
      tr
    = (Val d', (tr ++ map ListTagsForResource account_ids)%list)
    /\ forall k, dict_get k d'
                 = if existsb (String.eqb k) account_ids
                   then Some (unit_from answer k) else dict_get k d.
Proof.
  set (body := fun (account_tags : list (string * string)) (account_id : string) => _).
  induction account_ids as [|account_id rest IH]; intros d tr; cbn [for_each map existsb].
  - exists d. unfold ret. rewrite app_nil_r. split; reflexivity.
  - unfold bind at 1, body at 1. unfold bind, try_except, request, ret.
    rewrite Hstatic.
    destruct (IH (dict_set account_id (unit_from answer account_id) d)
                 (tr ++ [ListTagsForResource account_id])%list) as (d' & Hrun & Hget).
    exists d'. split.
    + unfold unit_from in Hrun. rewrite <- app_assoc in Hrun. cbn [app] in Hrun.
      destruct (answer account_id); exact Hrun.
    + intros k. rewrite Hget.
      destruct (existsb (String.eqb k) rest); [rewrite orb_true_r; reflexivity|].
      rewrite orb_false_r.
      destruct (String.eqb_spec k account_id) as [->|Hneq].
      * apply dict_get_set_same.
      * apply dict_get_set_other. exact Hneq.
Qed.

(** X12.  When the tag answer depends only on the account, every row gets
    a business unit: the unit read from its account's tags, or "Untagged"
    when the tag request for that account raises; a failing account does
    not affect the others.  One tag request is sent per distinct account
    id, in order of first appearance among the rows. *)
Theorem business_unit_column_complete
    (m : Management) (answer : string -> outcome (list Tag)) (rows : list Row)
    (tr : BaseLog)
    (Hstatic : forall log account_id,
        org_list_tags_for_resource m log account_id = answer account_id) :
  let account_ids := unique (map row_account_id rows) in
  business_unit_column m rows tr
  = (Val (map (fun r => Some (unit_from answer (row_account_id r))) rows),
     (tr ++ map ListTagsForResource account_ids)%list)
  /\ NoDup account_ids
  /\ (forall r, In r rows -> In (row_account_id r) account_ids).
Proof.
  cbv zeta.
  assert (Hcomplete : forall r, In r rows ->
                                In (row_account_id r) (unique (map row_account_id rows))).
  { intros r Hin.
    destruct (unique_after_complete (map row_account_id rows) [] (row_account_id r)
                (in_map row_account_id rows r Hin)) as [[]|Hu].
    exact Hu. }
  split; [|split; [apply unique_after_fresh|exact Hcomplete]].
  unfold business_unit_column. unfold bind at 1. unfold account_tags_of.
  destruct (account_tags_static m answer Hstatic (unique (map row_account_id rows)) [] tr)
    as (d' & -> & Hget).
  unfold ret. f_equal. f_equal.
  apply map_ext_in. intros r Hin. rewrite Hget.
  assert (Hex : existsb (String.eqb (row_account_id r))
                        (unique (map row_account_id rows)) = true).
  { apply existsb_exists. exists (row_account_id r).
    split; [apply Hcomplete; exact Hin|apply String.eqb_refl]. }
  rewrite Hex. reflexivity.
Qed.

(** Three rows of two accounts in [organization]: the management account
    is tagged, the tag request for the member account raises. *)
Lemma business_unit_column_complete_witness :
  let row account_data region :=
    result_row plain_estimator account_data region 1000000 5
               (mkS3Data 0 0 0) (mkEC2Data 0 0 0 0) in
  business_unit_column organization
    [row management "us-east-1"; row member "us-east-1"; row management "eu-west-1"] []
  = (Val [Some "Platform"; Some "Untagged"; Some "Platform"],
     [ListTagsForResource "111111111111"; ListTagsForResource "222222222222"]).
Proof.
  exact (proj1 (business_unit_column_complete organization
                  (org_list_tags_for_resource organization [])
                  [result_row plain_estimator management "us-east-1" 1000000 5
                              (mkS3Data 0 0 0) (mkEC2Data 0 0 0 0);
                   result_row plain_estimator member "us-east-1" 1000000 5
                              (mkS3Data 0 0 0) (mkEC2Data 0 0 0 0);
                   result_row plain_estimator management "eu-west-1" 1000000 5
                              (mkS3Data 0 0 0) (mkEC2Data 0 0 0 0)]
                  [] (fun _ _ => eq_refl))).
Defined.



(** ** Further properties: one row per pair *)

Lemma NoDup_pair_with (account_id : string) (account_regions : list string) :
  NoDup account_regions -> NoDup (map (pair account_id) account_regions).
Proof.
  induction 1 as [|region rest Hfresh Hrest IH]; cbn [map]; constructor;
    [|exact IH].
  intros Hin. apply in_map_iff in Hin as (r & Heq & Hr).
  injection Heq as <-. exact (Hfresh Hr).
Qed.

Lemma NoDup_account_region_pairs (todo : list Account) (account_regions : list string) :
  NoDup (map acc_id todo) -> NoDup account_regions ->
  NoDup (flat_map (fun account_data =>
                     map (pair (acc_id account_data)) account_regions) todo).
Proof.
  intros Hids Hregions.
  induction todo as [|account_data rest IH]; cbn [flat_map]; [constructor|].
  cbn [map] in Hids. apply NoDup_cons_iff in Hids as [Hfresh Hids].
  apply NoDup_app.
  - apply NoDup_pair_with. exact Hregions.
  - apply IH. exact Hids.
  - intros [account_id region] Hhere Hthere.
    apply in_map_iff in Hhere as (r & Heq & _). injection Heq as <- _.
    apply in_flat_map in Hthere as (other & Hother & Hin).
    apply in_map_iff in Hin as (r' & Heq & _). injection Heq as Hid _.
    apply Hfresh. rewrite <- Hid. apply in_map. exact Hother.
Qed.

(** X14.  Without the all-regions switch, when the caller-identity request
    never raises, the account ids are pairwise different and no region is
    listed twice, a run that starts with an empty collection ends with
    exactly one row for every pair of an account of [self.accounts] and a
    region of [self.regions], and with no other row. *)
Theorem explicit_run_one_row_per_pair
    (w : World) (self : Estimator) (tr : Log)
    (Hid : identity_known w)
    (Hexplicit : include_all_regions self = false)
    (Haccounts : NoDup (map acc_id (accounts self)))
    (Hregions : NoDup (regions self)) :
  exists rows st',
    run w self (mkSt tr []) = (Val rows, st')
    /\ (forall account_data region,
          In account_data (accounts self) -> In region (regions self) ->
          length (rows_for (acc_id account_data) region rows) = 1%nat)
    /\ (forall row, In row rows ->
                    In (row_account_id row) (map acc_id (accounts self))
                    /\ In (row_region row) (regions self))
    /\ length rows = (length (accounts self) * length (regions self))%nat.
Proof.
  destruct (run_tasks_appends w self Hid (accounts self) (mkSt tr []))
    as (tr' & rows & Hrun & Hkeys).
  rewrite (run_scopes_explicit w self (accounts self) Hexplicit) in Hkeys.
  cbn [results app] in Hrun.
  exists rows, (mkSt tr' rows). split; [|split; [|split]].
  - unfold run, bind. rewrite Hrun. reflexivity.
  - intros account_data region Ha Hr. apply rows_for_unique.
    + rewrite Hkeys. apply NoDup_account_region_pairs; assumption.
    + rewrite Hkeys. apply in_flat_map. exists account_data.
      split; [exact Ha|]. apply in_map. exact Hr.
  - intros row Hrow.
    assert (Hin : In (row_key row) (map row_key rows)) by (apply in_map; exact Hrow).
    rewrite Hkeys in Hin. apply in_flat_map in Hin as (account_data & Ha & Hin).
    apply in_map_iff in Hin as (region & Heq & Hr).
    unfold row_key in Heq. injection Heq as Hid' Hregion. split.
    + rewrite <- Hid'. apply in_map. exact Ha.
    + rewrite <- Hregion. exact Hr.
  - rewrite <- (length_map row_key rows), Hkeys, length_flat_map.
    clear. induction (accounts self) as [|account_data rest IH]; [reflexivity|].
    simpl. rewrite length_map. f_equal. exact IH.
Qed.

(** Two accounts and two regions in [management_world]: four rows. *)
Lemma explicit_run_one_row_per_pair_witness :
  exists rows st',
    run management_world
        (constructed (Some ["us-east-1"; "sa-east-1"]) false false false
                     fallback_catalog [management; member])
        (mkSt [] []) = (Val rows, st')
    /\ length rows = 4%nat
    /\ length (rows_for member_account "sa-east-1" rows) = 1%nat.
Proof.
  assert (Hid : identity_known management_world)
    by (intros log H; discriminate H).
  assert (Haccounts : NoDup [management_account; member_account]).
  { repeat constructor; cbn; intuition discriminate. }
  assert (Hregions : NoDup ["us-east-1"; "sa-east-1"]).
  { repeat constructor; cbn; intuition discriminate. }
  destruct (explicit_run_one_row_per_pair management_world
              (constructed (Some ["us-east-1"; "sa-east-1"]) false false false
                           fallback_catalog [management; member])
              [] Hid eq_refl Haccounts Hregions)
    as (rows & st' & Hrun & Hone & _ & Hlen).
  exists rows, st'. split; [exact Hrun|]. split; [exact Hlen|].
  apply (Hone member "sa-east-1"); cbn; auto.
Defined.
